(** * medaCy [Annotations]: the span comparison engine

    A shallow embedding of [medacy/data/annotations.py]: the entity
    dictionary, [add_entity], [difference], [intersection],
    [compute_ambiguity] and [compute_confusion_matrix], followed by the
    properties of the comparison engine.

    Modelling choices.
    - An entity is the Python 4-tuple [(label, start, end, text)]; offsets
      are Python integers, hence [Z].
    - The entity dictionary is an insertion-ordered Python [dict]: an
      association list in insertion order, written to with [dict_set]
      (an existing key keeps its position).
    - The results of [difference] and [intersection] are Python sets of
      tuples: [gset Span].
    - [leniency] is an exact rational [Q]. This is what Python computes for
      an [int] or [fractions.Fraction] leniency, and for a [float] leniency
      whenever the product [leniency * (end - start)] is representable
      (for instance 0.5 times a small width).
    - Raised exceptions are values of [exn]; a method that can raise returns
      [result]. The [isinstance] checks on the arguments are discharged by
      the types of the embedding.
    - A loop over a Python set visits [elements] of the [gset]; the loop of
      [compute_confusion_matrix] over the intersection only adds one to
      cells, so its result does not depend on the order. *)

From Stdlib Require Import QArith Qround.
From stdpp Require Import gmap strings list pretty.
From Stdlib Require Import Ascii.
From stdpp Require Import sorting.

(** The rest of the class is embedded as well: the constructor, [get_labels],
    the formats of [get_entity_annotations], [to_ann], [from_ann] with
    [is_valid_brat_ent], and [compute_counts]. What these learn from the
    file system (whether a path is a file, the lines or the text of a file)
    is a parameter; text is ASCII. *)

Local Open Scope string_scope.
Local Open Scope Z_scope.

(** ** Exceptions and the error monad *)

Inductive exn : Type :=
| TypeError (msg : string)
| ValueError (msg : string)
| KeyError (key : string)
| IndexError (msg : string).

Inductive result (A : Type) : Type :=
| Ok (a : A)
| Raise (e : exn).
Arguments Ok {A} a.
Arguments Raise {A} e.

#[global] Instance result_ret : MRet result := @Ok.

#[global] Instance result_bind : MBind result := λ A B k r,
  match r with
  | Ok a => k a
  | Raise e => Raise e
  end.

(** A [for] loop whose body may raise: the state is threaded from left to
    right and the first exception leaves the loop. *)
Fixpoint for_each {A S : Type} (body : S → A → result S) (xs : list A) (s : S)
  : result S :=
  match xs with
  | [] => Ok s
  | x :: xs' => s' ← body s x; for_each body xs' s'
  end.

(** ** Spans and insertion-ordered dictionaries *)

Definition Span : Type := string * Z * Z * string.

Definition span_label (a : Span) : string := a.1.1.1.
Definition span_start (a : Span) : Z := a.1.1.2.
Definition span_end (a : Span) : Z := a.1.2.

Section dict.
Context {K V : Type} `{EqDecision K}.

Definition dict : Type := list (K * V).

Definition dict_keys (d : dict) : list K := d.*1.
Definition dict_values (d : dict) : list V := d.*2.

Fixpoint dict_get (d : dict) (k : K) : option V :=
  match d with
  | [] => None
  | (k', v) :: d' => if decide (k' = k) then Some v else dict_get d' k
  end.

(** [d[k] = v]: overwrite in place, or append a new entry. *)
Fixpoint dict_set (d : dict) (k : K) (v : V) : dict :=
  match d with
  | [] => [(k, v)]
  | (k', v') :: d' =>
      if decide (k' = k) then (k', v) :: d' else (k', v') :: dict_set d' k v
  end.
End dict.
Arguments dict : clear implicits.

Record Annotations : Type := mkAnnotations {
  entities : dict string Span;
  relations : list (string * string * string)
}.

(** [get_entity_annotations()] with its default arguments:
    [list(self.annotations['entities'].values())]. *)
Definition get_entity_annotations (self : Annotations) : list Span :=
  dict_values (entities self).

(** ['T%i' % n] *)
Definition entity_id (n : nat) : string := "T" +:+ pretty n.

Definition add_entity (self : Annotations) (label : string) (start end_ : Z)
    (text : string) : Annotations :=
  mkAnnotations
    (dict_set (entities self)
       (entity_id (length (entities self) + 1)) (label, start, end_, text))
    (relations self).

(** ** Python values that meet in [set(...) - ...] *)

Inductive pyval : Type :=
| PySet (s : gset Span)
| PyList (l : list Span).

(** The binary [-]: [set.__sub__] accepts a set only, and a list has
    neither [__sub__] nor [__rsub__]. *)
Definition py_sub (x y : pyval) : result (gset Span) :=
  match x, y with
  | PySet a, PySet b => Ok (a ∖ b)
  | PySet _, PyList _ =>
      Raise (TypeError "unsupported operand type(s) for -: 'set' and 'list'")
  | PyList _, PySet _ =>
      Raise (TypeError "unsupported operand type(s) for -: 'list' and 'set'")
  | PyList _, PyList _ =>
      Raise (TypeError "unsupported operand type(s) for -: 'list' and 'list'")
  end.

(** ** Leniency *)

Definition leniency_nonzero (leniency : Q) : bool := negb (Qeq_bool leniency 0).

Definition leniency_in_range (leniency : Q) : bool :=
  Qle_bool 0 leniency && Qle_bool leniency 1.

Definition leniency_error : exn :=
  ValueError "Leniency must be a floating point between [0,1]".

(** [ceil(leniency * (end - start))] *)
Definition window (leniency : Q) (start end_ : Z) : Z :=
  Qceiling (leniency * inject_Z (end_ - start)).

(** The test in the body of the inner loop of [difference] and
    [intersection]: [label == c_label], then
    [start - window <= c_start and end + window >= c_end]. *)
Definition span_matches (leniency : Q) (a c : Span) : bool :=
  let '(label, start, end_, _) := a in
  let '(c_label, c_start, c_end, _) := c in
  let w := window leniency start end_ in
  if decide (label = c_label)
  then (start - w <=? c_start) && (end_ + w >=? c_end)
  else false.

(** The inner loop: the first candidate that passes the test adds the left
    span to [matches] and breaks. *)
Fixpoint scan_candidates (leniency : Q) (a : Span) (cs : list Span)
    (matches : gset Span) : gset Span :=
  match cs with
  | [] => matches
  | c :: cs' =>
      if span_matches leniency a c then {[a]} ∪ matches
      else scan_candidates leniency a cs' matches
  end.

(** The outer loop, shared verbatim by both methods. *)
Definition matching_scan (leniency : Q) (self annotations : Annotations)
  : gset Span :=
  foldl (λ matches a,
           scan_candidates leniency a (get_entity_annotations annotations) matches)
        ∅ (get_entity_annotations self).

Definition difference (self annotations : Annotations) (leniency : Q)
  : result (gset Span) :=
  if leniency_nonzero leniency then
    if negb (leniency_in_range leniency) then Raise leniency_error
    else
      let matches := matching_scan leniency self annotations in
      Ok (list_to_set (get_entity_annotations self) ∖ matches)
  else
    py_sub (PySet (list_to_set (get_entity_annotations self)))
           (PyList (get_entity_annotations annotations)).

Definition intersection (self annotations : Annotations) (leniency : Q)
  : result (gset Span) :=
  if leniency_nonzero leniency then
    if negb (leniency_in_range leniency) then Raise leniency_error
    else Ok (matching_scan leniency self annotations)
  else Ok (matching_scan leniency self annotations).

(** ** Ambiguity *)

(** [max(0, min(end, c_end) - max(c_start, start))] *)
Definition overlap (a c : Span) : Z :=
  let '(_, start, end_, _) := a in
  let '(_, c_start, c_end, _) := c in
  Z.max 0 (Z.min end_ c_end - Z.max c_start start).

(** [d[k].append(x)]. Its only use follows [d[k] = []] for the same key, so
    the lookup finds the key; a missing key leaves the dictionary as it is. *)
Definition dict_append `{EqDecision K} {V : Type}
    (d : dict K (list V)) (k : K) (x : V) : dict K (list V) :=
  match dict_get d k with
  | Some v => dict_set d k (v ++ [x])%list
  | None => d
  end.

(** The body of the inner loop of [compute_ambiguity]. *)
Definition ambiguity_step (a : Span) (ambiguity_dict : dict Span (list Span))
    (c : Span) : dict Span (list Span) :=
  if decide (span_label a = span_label c) then ambiguity_dict
  else if decide (overlap a c ≠ 0) then
    let d := dict_set ambiguity_dict a [] in
    dict_append d a c
  else ambiguity_dict.

Definition compute_ambiguity (self annotations : Annotations)
  : dict Span (list Span) :=
  foldl (λ d a, foldl (ambiguity_step a) d (get_entity_annotations annotations))
        [] (get_entity_annotations self).

(** ** Confusion matrix *)

Abbreviation matrix := (list (list Z)).

(** [{entity: int(i) for i, entity in enumerate(entities)}] *)
Definition entity_encoding (entities : list string) : dict string nat :=
  foldl (λ d '(i, entity), dict_set d entity i) [] (imap pair entities).

(** [[[0 for x in range(n)] for x in range(n)]] *)
Definition zero_matrix (n : nat) : matrix := replicate n (replicate n 0).

(** [entity_encoding[label]] *)
Definition encode (enc : dict string nat) (label : string) : result nat :=
  match dict_get enc label with
  | Some i => Ok i
  | None => Raise (KeyError label)
  end.

(** [l[i]] for a non-negative index. *)
Definition index {A : Type} (l : list A) (i : nat) : result A :=
  match l !! i with
  | Some x => Ok x
  | None => Raise (IndexError "list index out of range")
  end.

(** [confusion_matrix[enc[row_label]][enc[col_label]] += 1], in Python's
    order of evaluation. *)
Definition increment (enc : dict string nat) (m : matrix)
    (row_label col_label : string) : result matrix :=
  i ← encode enc row_label;
  row ← index m i;
  j ← encode enc col_label;
  v ← index row j;
  Ok (<[i := <[j := v + 1]> row]> m).

(** The loop over [ambiguity_dict]: each key comes with its list. *)
Definition off_diagonal (enc : dict string nat)
    (ambiguity_dict : dict Span (list Span)) (m : matrix) : result matrix :=
  for_each (λ m '(gold_span, ambiguous),
              for_each (λ m ambiguous_span,
                          increment enc m (span_label gold_span)
                                    (span_label ambiguous_span))
                       ambiguous m)
           ambiguity_dict m.

(** The loop over the intersection set. *)
Definition diagonal (enc : dict string nat) (matching : list Span) (m : matrix)
  : result matrix :=
  for_each (λ m matching_span,
              increment enc m (span_label matching_span)
                        (span_label matching_span))
           matching m.

Definition compute_confusion_matrix (self annotations : Annotations)
    (entities : list string) (leniency : Q) : result matrix :=
  let enc := entity_encoding entities in
  let confusion_matrix := zero_matrix (length entities) in
  let ambiguity_dict := compute_ambiguity self annotations in
  matching ← intersection self annotations leniency;
  m ← off_diagonal enc ambiguity_dict confusion_matrix;
  diagonal enc (elements matching) m.

(** [matrix[i][j]], and the sum of the main diagonal. *)
Definition cell (m : matrix) (i j : nat) : Z :=
  default 0 (row ← m !! i; row !! j).



(** An [n] by [n] matrix. *)
Definition square (n : nat) (m : matrix) : Prop :=
  length m = n ∧ ∀ i row, m !! i = Some row → length row = n.

(** How many of the spans [xs] have a label encoded as [i]. *)
Definition encoded_as (enc : dict string nat) (i : nat) (xs : list Span) : nat :=
  length (List.filter (λ x, bool_decide (dict_get enc (span_label x) = Some i)) xs).

(** ** Predicates of the specification *)

(** The matching rule as the specification words it: same label, and the
    candidate's range inside the left span's range widened by the window on
    both sides. The text fields do not occur. *)
Definition within_window (leniency : Q) (a b : Span) : Prop :=
  let w := Qceiling (leniency * inject_Z (span_end a - span_start a)) in
  span_label a = span_label b
  ∧ span_start a - w ≤ span_start b
  ∧ span_end a + w >= span_end b.

(** The keys are exactly [T1 .. Tn], in any order. *)
Definition contiguous_ids (self : Annotations) : Prop :=
  dict_keys (entities self) ≡ₚ entity_id <$> seq 1 (length (entities self)).

(** ** Entity sets used as concrete inputs *)

Definition drug_left : Annotations :=
  mkAnnotations [("T1", ("Drug", 10, 20, "x"))] [].

Definition wide_right : Annotations :=
  mkAnnotations [("T1", ("Drug", 6, 24, "y"))] [].

Definition reversed_left : Annotations :=
  mkAnnotations [("T1", ("Drug", 20, 10, "x"))] [].

Definition inner_right : Annotations :=
  mkAnnotations [("T1", ("Drug", 12, 18, "y"))] [].

Definition aspirin : Annotations :=
  mkAnnotations [("T1", ("Drug", 10, 15, "aspirin"))] [].

Definition warfarin : Annotations :=
  mkAnnotations [("T1", ("Drug", 10, 20, "warfarin"))] [].

Definition dose_and_frequency : Annotations :=
  mkAnnotations [("T1", ("Dose", 12, 18, "5mg"));
                 ("T2", ("Frequency", 15, 25, "daily"))] [].

Definition gapped : Annotations :=
  mkAnnotations [("T1", ("Drug", 10, 15, "aspirin"));
                 ("T3", ("Dose", 20, 23, "5mg"))] [].

(** ** Labels and counts *)

(** [set(e[0] for e in self.annotations['entities'].values())] *)
Definition get_labels (self : Annotations) : gset string :=
  list_to_set (span_label <$> dict_values (entities self)).

(** [Counter(iterable)]: for each element in turn,
    [mapping[elem] = mapping.get(elem, 0) + 1]. *)
Definition Counter (iterable : list string) : dict string nat :=
  foldl (λ mapping elem,
           dict_set mapping elem (default 0 (dict_get mapping elem) + 1)%nat)
        [] iterable.

(** The dictionary returned by [compute_counts], one field per key. *)
Record Counts : Type := mkCounts {
  counts_entities : dict string nat;
  counts_relations : dict string nat
}.

Definition compute_counts (self : Annotations) : Counts :=
  mkCounts (Counter (span_label <$> get_entity_annotations self)) [].

(** [get_relation_annotations()] *)
Definition get_relation_annotations (self : Annotations)
  : list (string * string * string) :=
  relations self.

(** ** Construction *)

(** The argument [annotation_data] of [__init__] as far as the constructor
    inspects it: a dictionary (its string keys; a key of another type never
    equals ['entities'] or ['relations']), a list, a string, or an object of
    any other type. *)
#[local] Unset Elimination Schemes.
Inductive pyobj : Type :=
| ObjDict (items : list (string * pyobj))
| ObjList (items : list pyobj)
| ObjStr (s : string)
| ObjOther.
#[local] Set Elimination Schemes.

(** The exceptions of the constructor: those of [exn] and three more. *)
Inductive init_exn : Type :=
| Builtin (e : exn)
| FileNotFoundError (msg : string)
| NotImplementedError (msg : string)
| AttributeError (msg : string).

Inductive init_result (A : Type) : Type :=
| Returned (a : A)
| Raised (e : init_exn).
Arguments Returned {A} a.
Arguments Raised {A} e.

#[global] Instance init_result_bind : MBind init_result := λ A B k r,
  match r with
  | Returned a => k a
  | Raised e => Raised e
  end.

(** What [self.annotations] holds when the constructor returns: the
    dictionary it was given, as it is, what [from_ann] loaded, or nothing
    when no branch assigned it. *)
Inductive annotations_state : Type :=
| GivenDict (items : list (string * pyobj))
| LoadedAnn (a : Annotations)
| Unassigned.

(** [key in d] and [d[key]] on a dictionary. *)
Definition contains (items : list (string * pyobj)) (key : string) : bool :=
  bool_decide (is_Some (dict_get items key)).

Definition getitem (items : list (string * pyobj)) (key : string)
  : init_result pyobj :=
  match dict_get items key with
  | Some v => Returned v
  | None => Raised (Builtin (KeyError key))
  end.

Definition is_dict (v : pyobj) : bool :=
  match v with ObjDict _ => true | _ => false end.

Definition is_list (v : pyobj) : bool :=
  match v with ObjList _ => true | _ => false end.

Definition entities_error : init_exn :=
  Builtin (ValueError
    "The dictionary annotation_data must contain a key 'entities' corresponding to a list of entity tuples").

Definition relations_error : init_exn :=
  Builtin (ValueError
    "The dictionary annotation_data must contain a key 'relations' corresponding to a list of entity tuples").

(** The dictionary branch of [__init__]. In
    ['entities' in d and isinstance(d['entities'], dict)] the subscript is
    evaluated only when the key is present; in
    ['relations' not in d and isinstance(d['relations'], list)] it is
    evaluated only when the key is absent. *)
Definition init_dict (items : list (string * pyobj))
  : init_result annotations_state :=
  entities_ok ←
    (if contains items "entities"
     then v ← getitem items "entities"; Returned (is_dict v)
     else Returned false);
  if negb entities_ok then @Raised annotations_state entities_error
  else
    relations_bad ←
      (if negb (contains items "relations")
       then v ← getitem items "relations"; Returned (is_list v)
       else Returned false);
    if (relations_bad : bool) then @Raised annotations_state relations_error
    else Returned (GivenDict items).

(** ** Reading and writing the ANN format *)

(** Text is ASCII: a character is a byte below 128, for which the classes
    [\d] and [\s] of [re] and the literals accepted by [int] are as
    written here. *)

(** [\d] *)
Definition is_digit (c : ascii) : bool :=
  match c with
  | "0" | "1" | "2" | "3" | "4" | "5" | "6" | "7" | "8" | "9" => true
  | _ => false
  end%char.

(** [\s]: [str.isspace] on one character, that is tab, line feed, vertical
    tab, form feed, carriage return, the four separators 28 to 31 and the
    space. *)
Definition is_space (c : ascii) : bool :=
  match c with
  | "009" | "010" | "011" | "012" | "013"
  | "028" | "029" | "030" | "031" | " " => true
  | _ => false
  end%char.

Definition tab : ascii := "009"%char.

(** Regular expressions, as far as the pattern of [is_valid_brat_ent] needs
    them, with their matching relation and a matcher by derivatives. *)
Inductive regex : Type :=
| Empty
| Eps
| Class (p : ascii → bool)
| Seq (r1 r2 : regex)
| Alt (r1 r2 : regex)
| Star (r : regex).

Definition Plus (r : regex) : regex := Seq r (Star r).
Definition Chr (c : ascii) : regex := Class (λ x, bool_decide (x = c)).

Inductive matches : regex → string → Prop :=
| matches_eps : matches Eps ""
| matches_class p c : p c = true → matches (Class p) (String c "")
| matches_seq r1 r2 s1 s2 :
    matches r1 s1 → matches r2 s2 → matches (Seq r1 r2) (s1 +:+ s2)
| matches_alt_l r1 r2 s : matches r1 s → matches (Alt r1 r2) s
| matches_alt_r r1 r2 s : matches r2 s → matches (Alt r1 r2) s
| matches_star_nil r : matches (Star r) ""
| matches_star_cons r s1 s2 :
    matches r s1 → matches (Star r) s2 → matches (Star r) (s1 +:+ s2).

Fixpoint nullable (r : regex) : bool :=
  match r with
  | Empty => false
  | Eps => true
  | Class _ => false
  | Seq r1 r2 => nullable r1 && nullable r2
  | Alt r1 r2 => nullable r1 || nullable r2
  | Star _ => true
  end.

Fixpoint deriv (c : ascii) (r : regex) : regex :=
  match r with
  | Empty => Empty
  | Eps => Empty
  | Class p => if p c then Eps else Empty
  | Seq r1 r2 =>
      if nullable r1 then Alt (Seq (deriv c r1) r2) (deriv c r2)
      else Seq (deriv c r1) r2
  | Alt r1 r2 => Alt (deriv c r1) (deriv c r2)
  | Star r => Seq (deriv c r) (Star r)
  end.

(** [re.fullmatch(r, s) is not None] *)
Fixpoint fullmatch (r : regex) (s : string) : bool :=
  match s with
  | "" => nullable r
  | String c s' => fullmatch (deriv c r) s'
  end.

(** [r"T\d+\t\S+ \d+ \d+\t.+"] under [re.DOTALL], where [.] is any
    character. *)
Definition brat_ent_pattern : regex :=
  Seq (Chr "T")
    (Seq (Plus (Class is_digit))
       (Seq (Chr tab)
          (Seq (Plus (Class (λ c, negb (is_space c))))
             (Seq (Chr " ")
                (Seq (Plus (Class is_digit))
                   (Seq (Chr " ")
                      (Seq (Plus (Class is_digit))
                         (Seq (Chr tab)
                            (Plus (Class (λ _, true))))))))))).

(** [is_valid_brat_ent(item)] for a string [item]. *)
Definition is_valid_brat_ent (item : string) : bool :=
  fullmatch brat_ent_pattern item.

(** [s.split(sep)] for a separator of one character. *)
Fixpoint split_on (sep : ascii) (s : string) : list string :=
  match s with
  | "" => [""]
  | String c s' =>
      if decide (c = sep) then "" :: split_on sep s'
      else match split_on sep s' with
           | piece :: pieces => String c piece :: pieces
           | [] => [String c ""]
           end
  end.

(** [l[-1]] *)
Definition index_last {A : Type} (l : list A) : result A :=
  match last l with
  | Some x => Ok x
  | None => Raise (IndexError "list index out of range")
  end.

(** [int(s)] on a string: surrounding whitespace is dropped, then come an
    optional sign and decimal digits, in which single underscores may
    separate digits. On an ASCII string the whitespace that [int] skips is
    that of C: tab, line feed, vertical tab, form feed, carriage return and
    space, without the separators 28 to 31. The message of the
    [ValueError], which quotes the literal, is cut short, and the limit that
    recent interpreters put on the number of digits is left out. *)
Definition is_int_space (c : ascii) : bool :=
  match c with
  | "009" | "010" | "011" | "012" | "013" | " " => true
  | _ => false
  end%char.

Fixpoint lstrip (s : string) : string :=
  match s with
  | "" => ""
  | String c s' => if is_int_space c then lstrip s' else s
  end.

Fixpoint rstrip (s : string) : string :=
  match s with
  | "" => ""
  | String c s' =>
      match rstrip s' with
      | "" => if is_int_space c then "" else String c ""
      | r => String c r
      end
  end.

Definition digit_value (c : ascii) : N := (N_of_ascii c - 48)%N.

Fixpoint int_digits (after_digit : bool) (acc : N) (s : string) : option N :=
  match s with
  | "" => if after_digit then Some acc else None
  | String c s' =>
      if is_digit c then int_digits true (10 * acc + digit_value c)%N s'
      else if decide (c = "_"%char)
           then if after_digit then int_digits false acc s' else None
           else None
  end.

Definition int_literal (s : string) : option Z :=
  match rstrip (lstrip s) with
  | String "+" digits => Z.of_N <$> int_digits false 0 digits
  | String "-" digits => (λ n, - Z.of_N n) <$> int_digits false 0 digits
  | literal => Z.of_N <$> int_digits false 0 literal
  end.

Definition py_int (s : string) : result Z :=
  match int_literal s with
  | Some z => Ok z
  | None => Raise (ValueError "invalid literal for int() with base 10")
  end.

(** The body of the loop of [from_ann] for one line of the file. The call
    [line.strip()] discards its result, so the line is used as it was read,
    with its line end. *)
Definition from_ann_line (entities : dict string Span) (line : string)
  : result (dict string Span) :=
  if negb (is_valid_brat_ent line) then Ok entities
  else
    let line := split_on tab line in
    field ← index line 1;
    let tags := split_on " " field in
    entity_name ← index tags 0;
    tag ← index tags 1;
    entity_start ← py_int tag;
    tag ← index_last tags;
    entity_end ← py_int tag;
    text ← index_last line;
    key ← index line 0;
    Ok (dict_set entities key (entity_name, entity_start, entity_end, text)).

(** [from_ann] on the lines that iterating over the open file yields. *)
Definition from_ann_lines (lines : list string) : result Annotations :=
  entities ← for_each from_ann_line lines [];
  Ok (mkAnnotations entities []).









Section file_system.
(** What the constructor and [from_ann] learn from the file system:
    [os.path.isfile], and the lines that iterating over an opened file
    yields. *)
Variable isfile : string → bool.
Variable lines_of : string → list string.

Definition from_ann (ann_file_path : string) : init_result Annotations :=
  if negb (isfile ann_file_path)
  then Raised (FileNotFoundError "ann_file_path is not a valid file path")
  else match from_ann_lines (lines_of ann_file_path) with
       | Ok a => Returned a
       | Raise e => Raised (Builtin e)
       end.

Definition supported_file_types : list string := ["ann"; "con"].

(** [__init__(annotation_data, annotation_type)]; [annotation_type] is [None]
    or a string. The class has no method [from_con]. *)
Definition init (annotation_data : pyobj) (annotation_type : option string)
  : init_result annotations_state :=
  match annotation_data with
  | ObjDict items => init_dict items
  | ObjStr path =>
      match annotation_type with
      | None =>
          Raised (Builtin (ValueError
            "Must specify the type of annotation file representing by annotation_data"))
      | Some ty =>
          if negb (isfile path)
          then Raised (FileNotFoundError "annotation_data is not a valid file path")
          else if negb (bool_decide (ty ∈ supported_file_types))
          then Raised (NotImplementedError
                 "medaCy currently only supports ['ann', 'con'] annotation files")
          else if decide (ty = "ann")
          then a ← from_ann path; Returned (LoadedAnn a)
          else if decide (ty = "con")
          then Raised (AttributeError
                 "'Annotations' object has no attribute 'from_con'")
          else Returned Unassigned
      end
  | _ => Raised (Builtin (TypeError "annotation_data must of type dict or str."))
  end.
End file_system.

(** Every character of a string satisfies a test. *)
Fixpoint all_chars (p : ascii → bool) (s : string) : bool :=
  match s with
  | "" => true
  | String c s' => p c && all_chars p s'
  end.

(** A non-empty string of characters that satisfy a test: what [c+] matches
    for a character class [c]. *)
Definition some_chars (p : ascii → bool) (s : string) : Prop :=
  s ≠ "" ∧ all_chars p s = true.


(** A line of the shape that the pattern describes. *)
Definition brat_line (number label start end_ text : string) : string :=
  String "T"
    (number +:+ String tab
       (label +:+ String " "
          (start +:+ String " " (end_ +:+ String tab text)))).






(** The three shapes of what [get_entity_annotations] returns. *)
Inductive entity_annotations : Type :=
| AsDictionary (d : dict string Span)
| AsList (l : list Span)
| AsSpacy (source_text : string) (entities : list (Z * Z * string)).

Section source_text.
(** The outcome of opening and reading the source text file. *)
Variable read_text : string → init_result string.

(** [get_entity_annotations(return_dictionary, format)] on an object whose
    [source_text_path] is [None] or a string. *)
Definition get_entity_annotations_as (self : Annotations)
    (source_text_path : option string) (return_dictionary : bool)
    (format : string) : init_result entity_annotations :=
  if return_dictionary then Returned (AsDictionary (entities self))
  else if decide (format = "medacy")
  then Returned (AsList (dict_values (entities self)))
  else if decide (format = "spacy")
  then
    match source_text_path with
    | None | Some "" =>
        Raised (FileNotFoundError "spaCy format requires the source text path")
    | Some path =>
        source_text ← read_text path;
        let entities :=
          foldl (λ entities annotation,
                   let entity := span_label annotation in
                   let start := span_start annotation in
                   let end_ := span_end annotation in
                   entities ++ [(start, end_, entity)])%list
                [] (dict_values (entities self)) in
        Returned (AsSpacy source_text entities)
    end
  else Raised (Builtin (ValueError
                 ("'" +:+ format +:+ "' is not a valid annotation format"))).
End source_text.

(** ** Helpers for stating further properties *)

(** The hit test of [compute_ambiguity]: another label and a non-zero
    overlap. *)
Definition ambiguous_with (a c : Span) : bool :=
  negb (bool_decide (span_label a = span_label c))
  && negb (overlap a c =? 0).

(** Successive [add_entity] calls, one per span. *)
Definition add_all (self : Annotations) (spans : list Span) : Annotations :=
  foldl (λ self '(label, start, end_, text), add_entity self label start end_ text)
        self spans.

(** An [Annotations] object with no entity and no relation: the state
    [from_ann] starts from. *)
Definition empty_annotations : Annotations := mkAnnotations [] [].

(** The (gold span, ambiguous span) pairs that the first loop of
    [compute_confusion_matrix] visits, in its order. *)
Definition ambiguous_pairs (d : dict Span (list Span)) : list (Span * Span) :=
  d ≫= (λ '(gold_span, ambiguous), (λ c, (gold_span, c)) <$> ambiguous).

(** One [+= 1] per pair of spans, at the encodings of their labels: the
    common shape of the two loops of [compute_confusion_matrix]. *)
Definition increment_pairs (enc : dict string nat) (pairs : list (Span * Span))
    (m : matrix) : result matrix :=
  for_each (λ m '(row_span, col_span),
              increment enc m (span_label row_span) (span_label col_span))
           pairs m.

(** How many of the pairs have labels encoded as row [i] and column [j]. *)
Definition pairs_encoded_as (enc : dict string nat) (i j : nat)
    (pairs : list (Span * Span)) : nat :=
  length (List.filter
            (λ '(row_span, col_span),
               bool_decide (dict_get enc (span_label row_span) = Some i)
               && bool_decide (dict_get enc (span_label col_span) = Some j))
            pairs).

(** ** The matching scan *)

Lemma span_matches_spec leniency a b :
  span_matches leniency a b = true ↔ within_window leniency a b.
Proof.
  destruct a as [[[label start] end_] text], b as [[[c_label c_start] c_end] c_text].
  unfold span_matches, within_window, window. cbn.
  destruct (decide (label = c_label)) as [->|Hne].
  - rewrite andb_true_iff, Z.leb_le, Z.geb_le. split.
    + intros [? ?]. split_and!; [done | done | lia].
    + intros (_ & ? & ?). split; [done | lia].
  - split; [done | by intros [? _]].
Qed.

Lemma scan_candidates_spec leniency a cs matches :
  scan_candidates leniency a cs matches =
    if existsb (span_matches leniency a) cs then {[a]} ∪ matches else matches.
Proof.
  induction cs as [|c cs IH]; cbn; [done |].
  by destruct (span_matches leniency a c).
Qed.

Lemma elem_of_scan_left leniency cs (left_spans : list Span) matches x :
  x ∈ foldl (λ matches a, scan_candidates leniency a cs matches) matches left_spans
  ↔ x ∈ matches
    ∨ (x ∈ left_spans ∧ ∃ c, c ∈ cs ∧ span_matches leniency x c = true).
Proof.
  revert matches. induction left_spans as [|a l IH]; intros matches; cbn.
  - rewrite elem_of_nil. tauto.
  - rewrite IH, scan_candidates_spec, elem_of_cons.
    destruct (existsb (span_matches leniency a) cs) eqn:Hex.
    + apply existsb_exists in Hex as (c & Hc%list_elem_of_In & Hm).
      rewrite elem_of_union, elem_of_singleton. split.
      * intros [[->|?]|[? ?]]; [right | by left | right]; eauto.
      * intros [?|[[->|?] ?]]; [left; by right | left; by left | right; eauto].
    + split; [intros [?|[? ?]]; [by left | right; eauto] |].
      intros [?|[[->|?] (c & Hc & Hm)]]; [by left | | by right; eauto].
      exfalso. apply not_true_iff_false in Hex. apply Hex.
      apply existsb_exists. exists c. by rewrite <- list_elem_of_In.
Qed.

Lemma elem_of_matching_scan leniency self annotations x :
  x ∈ matching_scan leniency self annotations
  ↔ x ∈ get_entity_annotations self
    ∧ ∃ c, c ∈ get_entity_annotations annotations ∧ within_window leniency x c.
Proof.
  unfold matching_scan. rewrite elem_of_scan_left, elem_of_empty.
  setoid_rewrite span_matches_spec. tauto.
Qed.

(** The scan as a filter of the left spans; evaluating the list side keeps
    concrete instances small. *)
Lemma matching_scan_filter leniency self annotations :
  matching_scan leniency self annotations
  = list_to_set
      (List.filter
         (λ a, existsb (span_matches leniency a)
                       (get_entity_annotations annotations))
         (get_entity_annotations self)).
Proof.
  apply set_eq. intros x. unfold matching_scan.
  rewrite elem_of_scan_left, elem_of_empty, elem_of_list_to_set.
  rewrite !list_elem_of_In, filter_In, existsb_exists.
  setoid_rewrite list_elem_of_In. tauto.
Qed.

Ltac eval_matching_scan :=
  rewrite matching_scan_filter;
  match goal with
  | |- context [List.filter ?f ?l] =>
      let r := eval vm_compute in (List.filter f l) in
      change (List.filter f l) with r
  end;
  rewrite ?list_to_set_singleton_L.

(** A closed decidable proposition, settled by evaluating its decision. *)
Ltac decide_by_evaluation :=
  match goal with
  | |- ?P => apply (bool_decide_eq_true_1 P); by vm_compute
  end.

(** ** Dictionaries *)

Section dict_facts.
Context {K V : Type} `{EqDecision K}.
Implicit Types (d : dict K V) (k : K) (v : V).

Lemma dict_get_set_eq d k v : dict_get (dict_set d k v) k = Some v.
Proof.
  induction d as [|[k' v'] d IH]; cbn.
  - by rewrite decide_True.
  - destruct (decide (k' = k)) as [->|Hne]; cbn.
    + by rewrite decide_True.
    + by rewrite decide_False.
Qed.

Lemma dict_get_set_ne d k k' v :
  k ≠ k' → dict_get (dict_set d k v) k' = dict_get d k'.
Proof.
  intros Hne. induction d as [|[k0 v0] d IH]; cbn.
  - by rewrite decide_False.
  - destruct (decide (k0 = k)) as [->|Hne0]; cbn.
    + by rewrite !decide_False.
    + by rewrite IH.
Qed.

Lemma dict_set_set d k v v' : dict_set (dict_set d k v) k v' = dict_set d k v'.
Proof.
  induction d as [|[k0 v0] d IH]; cbn.
  - by rewrite decide_True.
  - destruct (decide (k0 = k)) as [->|Hne]; cbn.
    + by rewrite decide_True.
    + by rewrite decide_False, IH.
Qed.

Lemma dict_set_fresh d k v : k ∉ dict_keys d → dict_set d k v = (d ++ [(k, v)])%list.
Proof.
  unfold dict_keys. induction d as [|[k0 v0] d IH]; cbn; [done |].
  intros [Hne Hnin]%not_elem_of_cons.
  by rewrite decide_False, IH.
Qed.

Lemma dict_set_present_keys d k v :
  k ∈ dict_keys d → dict_keys (dict_set d k v) = dict_keys d.
Proof.
  unfold dict_keys. induction d as [|[k0 v0] d IH]; cbn.
  - by intros ?%elem_of_nil.
  - intros Hin. destruct (decide (k0 = k)) as [->|Hne]; cbn; [done |].
    apply elem_of_cons in Hin as [?|Hin]; [congruence |].
    by rewrite IH.
Qed.

Lemma dict_set_present_length d k v :
  k ∈ dict_keys d → length (dict_set d k v) = length d.
Proof.
  intros Hin. apply dict_set_present_keys with (v := v) in Hin.
  apply (f_equal length) in Hin. unfold dict_keys in Hin.
  by rewrite !length_fmap in Hin.
Qed.

Lemma dict_set_elem_of d k v k' v' :
  (k', v') ∈ dict_set d k v → (k', v') ∈ d ∨ (k' = k ∧ v' = v).
Proof.
  induction d as [|[k0 v0] d IH]; cbn.
  - intros [[= -> ->]|[]%elem_of_nil]%elem_of_cons. by right.
  - destruct (decide (k0 = k)) as [->|Hne]; rewrite !elem_of_cons.
    + intros [[= -> ->]|?].
      * by right.
      * left. by right.
    + intros [[= -> ->]|Hin].
      * left. by left.
      * destruct (IH Hin) as [?|?]; [left | right]; [by right | done].
Qed.
End dict_facts.

(** ** The identifier of [add_entity] *)

Lemma entity_id_inj n m : entity_id n = entity_id m → n = m.
Proof.
  unfold entity_id. intros Heq.
  cbv [String.append] in Heq.
  injection Heq as Heq. by apply (inj pretty) in Heq.
Qed.

Lemma contiguous_next_fresh self :
  contiguous_ids self →
  entity_id (length (entities self) + 1) ∉ dict_keys (entities self).
Proof.
  unfold contiguous_ids. intros Hc Hin. rewrite Hc in Hin.
  apply list_elem_of_fmap in Hin as (i & Heq%entity_id_inj & Hi).
  apply elem_of_seq in Hi. lia.
Qed.

(** ** The leniency guard *)

Lemma leniency_nonzero_true leniency :
  leniency_nonzero leniency = true ↔ ¬ (leniency == 0)%Q.
Proof.
  unfold leniency_nonzero. rewrite negb_true_iff, <- Qeq_bool_iff.
  by destruct (Qeq_bool leniency 0).
Qed.

Lemma leniency_in_range_true leniency :
  leniency_in_range leniency = true ↔ (0 <= leniency)%Q ∧ (leniency <= 1)%Q.
Proof.
  unfold leniency_in_range. by rewrite andb_true_iff, !Qle_bool_iff.
Qed.

Lemma intersection_in_range self annotations leniency :
  (0 <= leniency)%Q → (leniency <= 1)%Q →
  intersection self annotations leniency
  = Ok (matching_scan leniency self annotations).
Proof.
  intros H0 H1. unfold intersection.
  assert (leniency_in_range leniency = true) as ->
    by by apply leniency_in_range_true.
  by destruct (leniency_nonzero leniency).
Qed.

Lemma difference_positive self annotations leniency :
  (0 < leniency)%Q → (leniency <= 1)%Q →
  difference self annotations leniency
  = Ok (list_to_set (get_entity_annotations self)
          ∖ matching_scan leniency self annotations).
Proof.
  intros H0 H1. unfold difference.
  assert (leniency_nonzero leniency = true) as ->.
  { apply leniency_nonzero_true. intros Heq. rewrite Heq in H0.
    by apply Qlt_irrefl in H0. }
  assert (leniency_in_range leniency = true) as ->; [|done].
  apply leniency_in_range_true. split; [by apply Qlt_le_weak | done].
Qed.

Lemma out_of_range_nonzero leniency :
  ¬ ((0 <= leniency)%Q ∧ (leniency <= 1)%Q) →
  leniency_nonzero leniency = true ∧ leniency_in_range leniency = false.
Proof.
  intros Hout. split.
  - apply leniency_nonzero_true. intros Heq. apply Hout.
    rewrite Heq. split; by vm_compute.
  - apply not_true_iff_false. by rewrite leniency_in_range_true.
Qed.

(** * Properties *)

(** ** Matching at positive leniency *)



(** ** The leniency guard of [difference] and [intersection] *)

(** C9. A leniency outside [0,1] makes both [difference] and [intersection]
    raise the leniency [ValueError]: nothing is clamped and no set is
    returned. A leniency inside [0,1] never raises it: [intersection]
    returns its set and [difference] raises no [ValueError] at all. *)
Theorem leniency_guard (self annotations : Annotations) (leniency : Q) :
  (¬ ((0 <= leniency)%Q ∧ (leniency <= 1)%Q) →
     difference self annotations leniency = Raise leniency_error
     ∧ intersection self annotations leniency = Raise leniency_error)
  ∧ ((0 <= leniency)%Q ∧ (leniency <= 1)%Q →
     (∀ msg, difference self annotations leniency ≠ Raise (ValueError msg))
     ∧ ∃ matched, intersection self annotations leniency = Ok matched).
Proof.
  split.
  - intros [Hnz Hout]%out_of_range_nonzero.
    unfold difference, intersection. by rewrite Hnz, Hout.
  - intros [H0 H1]. split.
    + intros msg. unfold difference.
      destruct (leniency_nonzero leniency); [|done].
      assert (leniency_in_range leniency = true) as ->
        by by apply leniency_in_range_true.
      done.
    + eexists. by apply intersection_in_range.
Qed.

Lemma leniency_guard_witness :
  (difference drug_left wide_right (3 # 2) = Raise leniency_error
   ∧ intersection drug_left wide_right (-1 # 10) = Raise leniency_error)
  ∧ (∀ msg, difference drug_left wide_right 1 ≠ Raise (ValueError msg))
  ∧ ∃ matched, intersection drug_left wide_right 0 = Ok matched.
Proof.
  split_and!.
  - apply (leniency_guard drug_left wide_right (3 # 2)).
    intros [_ H]. by vm_compute in H.
  - apply (leniency_guard drug_left wide_right (-1 # 10)).
    intros [H _]. by vm_compute in H.
  - apply (leniency_guard drug_left wide_right 1). split; by vm_compute.
  - apply (leniency_guard drug_left wide_right 0). split; by vm_compute.
Defined.

(** ** Monotonicity in the leniency *)

Lemma window_mono l1 l2 start end_ :
  start ≤ end_ → (l1 <= l2)%Q → window l1 start end_ ≤ window l2 start end_.
Proof.
  intros Hw Hl. unfold window. apply Qceiling_resp_le.
  apply Qmult_le_compat_r; [done |].
  unfold Qle. cbn. lia.
Qed.

Lemma within_window_mono l1 l2 a b :
  span_start a ≤ span_end a → (l1 <= l2)%Q →
  within_window l1 a b → within_window l2 a b.
Proof.
  intros Hw Hl (Hlab & Hs & He). unfold within_window in *.
  pose proof (window_mono l1 l2 _ _ Hw Hl) as Hmono. unfold window in Hmono.
  split_and!; [done | lia | lia].
Qed.

(** C6. For two leniencies [0 <= l1 < l2 <= 1], [intersection] at [l1] is a
    subset of [intersection] at [l2], on entity sets whose spans satisfy the
    data model's [start <= end]. *)
Theorem intersection_leniency_mono (self annotations : Annotations) (l1 l2 : Q) :
  (∀ a, a ∈ get_entity_annotations self → span_start a ≤ span_end a) →
  (0 <= l1)%Q → (l1 < l2)%Q → (l2 <= 1)%Q →
  ∃ matched1 matched2,
    intersection self annotations l1 = Ok matched1
    ∧ intersection self annotations l2 = Ok matched2
    ∧ matched1 ⊆ matched2.
Proof.
  intros Hwf H0 Hlt H1. apply Qlt_le_weak in Hlt as Hle.
  eexists _, _. split_and!.
  - apply intersection_in_range; [done | by apply Qle_trans with l2].
  - apply intersection_in_range; [by apply Qle_trans with l1 | done].
  - intros a (Ha & b & Hb & Hm)%elem_of_matching_scan.
    apply elem_of_matching_scan. split; [done |].
    exists b. split; [done |]. eapply within_window_mono; eauto.
Qed.

Lemma intersection_leniency_mono_witness :
  ∃ matched1 matched2,
    intersection drug_left wide_right 0 = Ok matched1
    ∧ intersection drug_left wide_right (1 # 2) = Ok matched2
    ∧ matched1 ⊆ matched2.
Proof.
  apply (intersection_leniency_mono drug_left wide_right 0 (1 # 2));
    [| by vm_compute..].
  intros a [->|[]%elem_of_nil]%elem_of_cons. by vm_compute.
Defined.

(** On a span with [end < start], which [add_entity] does not reject, the
    window is negative and shrinks the range, so the hypothesis on the spans
    cannot be dropped. *)
Example reversed_span_not_monotone :
  intersection reversed_left reversed_left 0 = Ok {[("Drug", 20, 10, "x")]}
  ∧ intersection reversed_left reversed_left 1 = Ok ∅.
Proof.
  rewrite !intersection_in_range by by vm_compute.
  split; by eval_matching_scan.
Qed.

(** ** The literal case at leniency 0.5 *)



(** ** Leniency zero *)

(** C2, evaluated. At leniency 0 [intersection] runs the same scan with a
    window of 0: a left span is returned as soon as a candidate with its
    label lies inside it, although no equal tuple occurs on the right; and
    [difference] at leniency 0 raises [TypeError]. *)
Theorem zero_leniency_intersection_contains :
  intersection drug_left inner_right 0 = Ok {[("Drug", 10, 20, "x")]}
  ∧ (("Drug", 10, 20, "x") ∉ get_entity_annotations inner_right)
  ∧ difference drug_left inner_right 0
    = Raise (TypeError "unsupported operand type(s) for -: 'set' and 'list'").
Proof.
  split_and!; [| | done].
  - rewrite intersection_in_range by by vm_compute. by eval_matching_scan.
  - by intros [[=]|[]%elem_of_nil]%elem_of_cons.
Qed.

(** C4, evaluated. [difference] at leniency 0 subtracts a list from a set,
    which raises [TypeError] whatever the two entity sets hold. *)
Theorem zero_leniency_difference_raises (self annotations : Annotations) :
  difference self annotations 0
  = Raise (TypeError "unsupported operand type(s) for -: 'set' and 'list'").
Proof. done. Qed.

(** C5, evaluated on two equal one-span sets: [intersection] returns the
    span, [difference] raises, so there is no second half of a partition. *)
Theorem zero_leniency_no_partition :
  intersection aspirin aspirin 0 = Ok {[("Drug", 10, 15, "aspirin")]}
  ∧ ∀ unmatched, difference aspirin aspirin 0 ≠ Ok unmatched.
Proof.
  split; [| done].
  rewrite intersection_in_range by by vm_compute. by eval_matching_scan.
Qed.

(** ** Ambiguity *)

Lemma ambiguity_step_overwrite a d c :
  ambiguity_step a d c =
    if decide (span_label a = span_label c) then d
    else if decide (overlap a c ≠ 0) then dict_set d a [c] else d.
Proof.
  unfold ambiguity_step, dict_append.
  repeat case_decide; try done.
  by rewrite dict_get_set_eq, dict_set_set.
Qed.

Lemma ambiguity_inner_invariant (P : Span → list Span → Prop) a cs
    (d : dict Span (list Span)) :
  (∀ c, c ∈ cs → span_label a ≠ span_label c → overlap a c ≠ 0 → P a [c]) →
  (∀ key value, (key, value) ∈ d → P key value) →
  ∀ key value, (key, value) ∈ foldl (ambiguity_step a) d cs → P key value.
Proof.
  revert d. induction cs as [|c cs IH]; intros d Hhit Hd; cbn; [done |].
  apply IH; [intros c' Hc'; apply Hhit; by right |].
  rewrite ambiguity_step_overwrite.
  repeat case_decide; try done.
  intros key value [?|[-> ->]]%dict_set_elem_of; [by apply Hd |].
  apply Hhit; [by left | done | done].
Qed.

Lemma compute_ambiguity_invariant (P : Span → list Span → Prop) self annotations :
  (∀ a c, a ∈ get_entity_annotations self →
          c ∈ get_entity_annotations annotations →
          span_label a ≠ span_label c → overlap a c ≠ 0 → P a [c]) →
  ∀ key value, (key, value) ∈ compute_ambiguity self annotations → P key value.
Proof.
  unfold compute_ambiguity.
  generalize (get_entity_annotations annotations) as cs.
  generalize (get_entity_annotations self) as left_spans.
  intros left_spans cs Hhit.
  assert (∀ key value, (key, value) ∈ ([] : dict Span (list Span)) →
                       P key value) as Hnil
    by by intros ?? ?%elem_of_nil.
  revert Hnil. generalize ([] : dict Span (list Span)) as d.
  induction left_spans as [|a l IH]; intros d Hd; cbn; [done |].
  apply IH; [intros a' c Ha'; apply Hhit; by right |].
  apply ambiguity_inner_invariant; [| done].
  intros c Hc. apply Hhit; [by left | done].
Qed.

Lemma compute_ambiguity_singletons self annotations key value :
  (key, value) ∈ compute_ambiguity self annotations → length value = 1%nat.
Proof. by apply (compute_ambiguity_invariant (λ _ value, length value = 1%nat)). Qed.

(** Every recorded pair is a left span with right spans of another label. *)
Lemma compute_ambiguity_labels self annotations key value :
  (key, value) ∈ compute_ambiguity self annotations →
  key ∈ get_entity_annotations self
  ∧ ∀ c, c ∈ value →
         c ∈ get_entity_annotations annotations
         ∧ span_label key ≠ span_label c.
Proof.
  apply (compute_ambiguity_invariant
           (λ key value,
              key ∈ get_entity_annotations self
              ∧ ∀ c, c ∈ value →
                     c ∈ get_entity_annotations annotations
                     ∧ span_label key ≠ span_label c)).
  intros a c Ha Hc Hne _. split; [done |].
  by intros c' [->|[]%elem_of_nil]%elem_of_cons.
Qed.

(** C3, evaluated. The left span [("Drug", 10, 20, "warfarin")] is overlapped
    by two right spans of other labels (overlaps 6 and 5), yet the value
    list holds the last of them only: each hit resets the list before it
    appends. No value list of [compute_ambiguity] is ever longer than one. *)
Theorem ambiguity_keeps_last_overlap :
  overlap ("Drug", 10, 20, "warfarin") ("Dose", 12, 18, "5mg") = 6
  ∧ overlap ("Drug", 10, 20, "warfarin") ("Frequency", 15, 25, "daily") = 5
  ∧ compute_ambiguity warfarin dose_and_frequency
    = [(("Drug", 10, 20, "warfarin"), [("Frequency", 15, 25, "daily")])]
  ∧ ∀ self annotations key value,
      (key, value) ∈ compute_ambiguity self annotations →
      length value = 1%nat.
Proof.
  split_and!; [by vm_compute.. |]. apply compute_ambiguity_singletons.
Qed.

(** ** Identifiers assigned by [add_entity] *)

(** C10. [add_entity] writes its span under the key ["T"] followed by the
    entity count plus one. When the keys are exactly [T1 .. Tn] that key is
    fresh, the span is appended and the count grows by one; when the key is
    already present (possible once the keys have gaps, as in [gapped] with
    keys T1 and T3), the entry under it is overwritten in place and the
    count stays the same. *)
Theorem add_entity_next_ordinal :
  (∀ self label start end_ text,
     let n := length (entities self) in
     let new_id := "T" +:+ pretty (n + 1)%nat in
     let after := add_entity self label start end_ text in
     entities after = dict_set (entities self) new_id (label, start, end_, text)
     ∧ dict_get (entities after) new_id = Some (label, start, end_, text)
     ∧ (contiguous_ids self →
          (new_id ∉ dict_keys (entities self))
          ∧ entities after
            = (entities self ++ [(new_id, (label, start, end_, text))])%list
          ∧ length (entities after) = S n
          ∧ contiguous_ids after)
     ∧ (new_id ∈ dict_keys (entities self) →
          dict_keys (entities after) = dict_keys (entities self)
          ∧ length (entities after) = n))
  ∧ NoDup (dict_keys (entities gapped))
  ∧ ¬ contiguous_ids gapped
  ∧ add_entity gapped "Route" 30 34 "oral"
    = mkAnnotations [("T1", ("Drug", 10, 15, "aspirin"));
                     ("T3", ("Route", 30, 34, "oral"))] [].
Proof.
  split_and!.
  - intros self label start end_ text n new_id after.
    assert (entities after
            = dict_set (entities self) new_id (label, start, end_, text))
      as Hafter by done.
    split_and!; [done | by rewrite Hafter, dict_get_set_eq | |].
    + intros Hc. pose proof (contiguous_next_fresh self Hc) as Hfresh.
      fold n in Hfresh. change (entity_id (n + 1)) with new_id in Hfresh.
      assert (entities after
              = (entities self ++ [(new_id, (label, start, end_, text))])%list)
        as Happ by (rewrite Hafter; by apply dict_set_fresh).
      split_and!; [done | done | |].
      * rewrite Happ, length_app. cbn. fold n. lia.
      * unfold contiguous_ids in *. rewrite Happ, length_app. cbn.
        fold n. unfold dict_keys in *. rewrite fmap_app, Hc. cbn.
        replace (n + 1)%nat with (S n) by lia.
        rewrite seq_S, fmap_app. cbn.
        by replace (S n) with (n + 1)%nat by lia.
    + intros Hin. split.
      * rewrite Hafter. by apply dict_set_present_keys.
      * rewrite Hafter. by apply dict_set_present_length.
  - decide_by_evaluation.
  - unfold contiguous_ids. intros Hperm.
    assert ("T3" ∉ entity_id <$> seq 1 (length (entities gapped))) as Hnot
      by (decide_by_evaluation).
    apply Hnot. rewrite <- Hperm.
    decide_by_evaluation.
  - by vm_compute.
Qed.

Lemma add_entity_next_ordinal_witness :
  length (entities (add_entity aspirin "Dose" 20 23 "5mg")) = 2%nat
  ∧ length (entities (add_entity gapped "Route" 30 34 "oral")) = 2%nat.
Proof.
  destruct add_entity_next_ordinal as [Hadd _]. split.
  - apply (Hadd aspirin "Dose" 20 23 "5mg").
    unfold contiguous_ids. by vm_compute.
  - apply (Hadd gapped "Route" 30 34 "oral").
    decide_by_evaluation.
Defined.

(** ** Matrices *)





Lemma zero_matrix_square n : square n (zero_matrix n).
Proof.
  unfold zero_matrix. split; [by rewrite length_replicate |].
  intros i row [-> _]%lookup_replicate. by rewrite length_replicate.
Qed.

Lemma zero_matrix_cell n i j : cell (zero_matrix n) i j = 0.
Proof.
  unfold cell, zero_matrix.
  destruct (replicate n (replicate n 0) !! i) as [row|] eqn:Hrow; simpl; [|done].
  apply lookup_replicate in Hrow as [-> _].
  destruct (replicate n 0 !! j) as [v|] eqn:Hv; simpl; [|done].
  by apply lookup_replicate in Hv as [-> _].
Qed.

(** One [+= 1] with both labels known: the cell at the two encodings goes up
    by one, every other cell is unchanged and the matrix stays square. *)
Lemma increment_spec n enc m row_label col_label i j :
  square n m →
  dict_get enc row_label = Some i → dict_get enc col_label = Some j →
  (i < n)%nat → (j < n)%nat →
  ∃ m', increment enc m row_label col_label = Ok m'
        ∧ square n m'
        ∧ ∀ a b, cell m' a b
                 = cell m a b + (if decide (a = i ∧ b = j) then 1 else 0).
Proof.
  intros [Hlen Hrows] Hi Hj Hin Hjn. unfold increment, encode, index.
  rewrite Hi, Hj. cbn.
  destruct (lookup_lt_is_Some_2 m i) as [row Hrow]; [lia |].
  rewrite Hrow. cbn.
  pose proof (Hrows _ _ Hrow) as Hrowlen.
  destruct (lookup_lt_is_Some_2 row j) as [v Hv]; [lia |].
  rewrite Hv. cbn.
  eexists. split_and!; [done | |].
  - split; [by rewrite length_insert |].
    intros a r. destruct (decide (a = i)) as [->|Hne].
    + rewrite list_lookup_insert_eq by lia. intros [= <-].
      by rewrite length_insert.
    + rewrite list_lookup_insert_ne by done. apply Hrows.
  - intros a b. unfold cell. destruct (decide (a = i)) as [->|Hne].
    + rewrite list_lookup_insert_eq by lia. rewrite Hrow. cbn.
      destruct (decide (b = j)) as [->|Hneb].
      * rewrite list_lookup_insert_eq by lia. rewrite Hv. cbn.
        by rewrite decide_True.
      * rewrite list_lookup_insert_ne by done.
        rewrite decide_False by (by intros [_ ?]). lia.
    + rewrite list_lookup_insert_ne by done.
      rewrite decide_False by (by intros [? _]). lia.
Qed.


(** ** The label encoding *)

Lemma entity_encoding_snoc ents e :
  entity_encoding (ents ++ [e])
  = dict_set (entity_encoding ents) e (length ents).
Proof.
  unfold entity_encoding. rewrite imap_app, foldl_app. cbn.
  by rewrite Nat.add_0_r.
Qed.

Lemma entity_encoding_lookup ents label i :
  dict_get (entity_encoding ents) label = Some i →
  (i < length ents)%nat ∧ ents !! i = Some label.
Proof.
  induction ents as [|e ents IH] using rev_ind; [done |].
  rewrite entity_encoding_snoc, length_app. cbn.
  destruct (decide (e = label)) as [->|Hne].
  - rewrite dict_get_set_eq. intros [= <-]. split; [lia |].
    by rewrite list_lookup_middle.
  - rewrite dict_get_set_ne by done. intros [Hlt Hl]%IH.
    split; [lia |]. by rewrite lookup_app_l.
Qed.

Lemma entity_encoding_known ents label :
  label ∈ ents → ∃ i, dict_get (entity_encoding ents) label = Some i.
Proof.
  induction ents as [|e ents IH] using rev_ind; [by intros ?%elem_of_nil |].
  rewrite entity_encoding_snoc. intros Hin.
  destruct (decide (e = label)) as [->|Hne].
  - eexists. apply dict_get_set_eq.
  - rewrite dict_get_set_ne by done. apply IH.
    apply elem_of_app in Hin as [?|[?|[]%elem_of_nil]%elem_of_cons];
      [done | congruence].
Qed.

(** ** The two loops of [compute_confusion_matrix] *)


Lemma encoded_as_cons enc i x xs :
  encoded_as enc i (x :: xs)
  = ((if decide (dict_get enc (span_label x) = Some i) then 1 else 0)
     + encoded_as enc i xs)%nat.
Proof.
  unfold encoded_as. cbn.
  destruct (decide (dict_get enc (span_label x) = Some i)).
  - by rewrite bool_decide_eq_true_2.
  - by rewrite bool_decide_eq_false_2.
Qed.




(** ** The diagonal of the confusion matrix *)



(** Outside these hypotheses no matrix is returned: a leniency outside
    [0,1] raises in the call to [intersection], and a label missing from the
    vocabulary raises [KeyError] at its first lookup. *)
Lemma confusion_matrix_leniency_error self annotations labels leniency :
  ¬ ((0 <= leniency)%Q ∧ (leniency <= 1)%Q) →
  compute_confusion_matrix self annotations labels leniency
  = Raise leniency_error.
Proof.
  intros [Hnz Hout]%out_of_range_nonzero.
  unfold compute_confusion_matrix, intersection. by rewrite Hnz, Hout.
Qed.

Example confusion_matrix_unknown_label :
  compute_confusion_matrix warfarin dose_and_frequency ["Drug"; "Dose"] 1
  = Raise (KeyError "Frequency").
Proof.
  unfold compute_confusion_matrix.
  rewrite intersection_in_range by by vm_compute. cbn [mbind result_bind].
  by vm_compute.
Qed.

(** * Further properties of the comparison engine *)

(** ** Set operations at positive leniency *)

(** X1. At a leniency in (0,1] [intersection] and [difference] split the
    left spans: their union is the set of left spans and they are
    disjoint. *)
Theorem positive_leniency_partition
    (self annotations : Annotations) (leniency : Q) :
  (0 < leniency)%Q → (leniency <= 1)%Q →
  ∃ matched unmatched,
    intersection self annotations leniency = Ok matched
    ∧ difference self annotations leniency = Ok unmatched
    ∧ matched ∪ unmatched = list_to_set (get_entity_annotations self)
    ∧ matched ∩ unmatched = ∅.
Proof.
  intros Hpos Hle. eexists _, _. split_and!.
  - apply intersection_in_range; [by apply Qlt_le_weak | done].
  - by apply difference_positive.
  - apply set_eq. intros x.
    rewrite elem_of_union, elem_of_difference, elem_of_list_to_set.
    rewrite elem_of_matching_scan.
    destruct (decide (x ∈ matching_scan leniency self annotations)) as [Hin|Hnin].
    + apply elem_of_matching_scan in Hin. tauto.
    + rewrite elem_of_matching_scan in Hnin. tauto.
  - apply set_eq. intros x.
    rewrite elem_of_intersection, elem_of_difference, elem_of_empty. tauto.
Qed.

Lemma positive_leniency_partition_witness :
  ∃ matched unmatched,
    intersection drug_left wide_right (1 # 2) = Ok matched
    ∧ difference drug_left wide_right (1 # 2) = Ok unmatched
    ∧ matched ∪ unmatched = list_to_set (get_entity_annotations drug_left)
    ∧ matched ∩ unmatched = ∅.
Proof.
  apply (positive_leniency_partition drug_left wide_right (1 # 2));
    by vm_compute.
Defined.

Lemma window_nonneg leniency start end_ :
  (0 <= leniency)%Q → start ≤ end_ → 0 ≤ window leniency start end_.
Proof.
  intros Hl Hw. unfold window.
  change 0 with (Qceiling 0). apply Qceiling_resp_le.
  apply Qmult_le_0_compat; [done |]. unfold Qle. cbn. lia.
Qed.

Lemma within_window_refl leniency a :
  (0 <= leniency)%Q → span_start a ≤ span_end a → within_window leniency a a.
Proof.
  intros Hl Hw. pose proof (window_nonneg leniency _ _ Hl Hw) as Hwin.
  unfold window in Hwin. unfold within_window. split_and!; [done | lia | lia].
Qed.

(** X2. Compared with itself at a leniency in [0,1], an entity set whose
    spans have [start <= end] is matched entirely: [intersection] returns
    all its spans and, at positive leniency, [difference] returns the empty
    set. *)
Theorem self_comparison (self : Annotations) (leniency : Q) :
  (∀ a, a ∈ get_entity_annotations self → span_start a ≤ span_end a) →
  (0 <= leniency)%Q → (leniency <= 1)%Q →
  intersection self self leniency
  = Ok (list_to_set (get_entity_annotations self))
  ∧ ((0 < leniency)%Q → difference self self leniency = Ok ∅).
Proof.
  intros Hwf H0 H1.
  assert (matching_scan leniency self self
          = list_to_set (get_entity_annotations self)) as Hscan.
  { apply set_eq. intros x.
    rewrite elem_of_matching_scan, elem_of_list_to_set. split; [tauto |].
    intros Hx. split; [done |]. exists x. split; [done |].
    apply within_window_refl; [done | by apply Hwf]. }
  split.
  - by rewrite intersection_in_range, Hscan.
  - intros Hpos. rewrite difference_positive, Hscan by done.
    f_equal. apply set_eq. intros x.
    rewrite elem_of_difference, elem_of_empty. tauto.
Qed.

Lemma self_comparison_witness :
  intersection drug_left drug_left (1 # 2)
  = Ok (list_to_set (get_entity_annotations drug_left))
  ∧ difference drug_left drug_left (1 # 2) = Ok ∅.
Proof.
  destruct (self_comparison drug_left (1 # 2)) as [Hi Hd];
    [| by vm_compute | by vm_compute |].
  - intros a [->|[]%elem_of_nil]%elem_of_cons. by vm_compute.
  - split; [done |]. apply Hd. by vm_compute.
Defined.

(** X3. Adding spans to the right set never loses a match: at a leniency in
    (0,1] the intersection can only grow and the difference only shrink. *)
Theorem right_set_monotone
    (self annotations annotations' : Annotations) (leniency : Q) :
  (∀ c, c ∈ get_entity_annotations annotations →
        c ∈ get_entity_annotations annotations') →
  (0 < leniency)%Q → (leniency <= 1)%Q →
  ∃ matched matched' unmatched unmatched',
    intersection self annotations leniency = Ok matched
    ∧ intersection self annotations' leniency = Ok matched'
    ∧ difference self annotations leniency = Ok unmatched
    ∧ difference self annotations' leniency = Ok unmatched'
    ∧ matched ⊆ matched'
    ∧ unmatched' ⊆ unmatched.
Proof.
  intros Hsub Hpos Hle. apply Qlt_le_weak in Hpos as H0.
  assert (matching_scan leniency self annotations
          ⊆ matching_scan leniency self annotations') as Hscan.
  { intros a (Ha & c & Hc & Hm)%elem_of_matching_scan.
    apply elem_of_matching_scan. eauto. }
  eexists _, _, _, _. split_and!.
  - by apply intersection_in_range.
  - by apply intersection_in_range.
  - by apply difference_positive.
  - by apply difference_positive.
  - done.
  - intros a [Ha Hn]%elem_of_difference. apply elem_of_difference. auto.
Qed.

Lemma right_set_monotone_witness :
  ∃ matched matched' unmatched unmatched',
    intersection warfarin aspirin (1 # 2) = Ok matched
    ∧ intersection warfarin (add_entity aspirin "Drug" 10 20 "w") (1 # 2)
      = Ok matched'
    ∧ difference warfarin aspirin (1 # 2) = Ok unmatched
    ∧ difference warfarin (add_entity aspirin "Drug" 10 20 "w") (1 # 2)
      = Ok unmatched'
    ∧ matched ⊆ matched'
    ∧ unmatched' ⊆ unmatched.
Proof.
  apply (right_set_monotone warfarin aspirin
           (add_entity aspirin "Drug" 10 20 "w") (1 # 2));
    [| by vm_compute..].
  intros c [->|[]%elem_of_nil]%elem_of_cons. decide_by_evaluation.
Defined.

(** X4. Empty operands. With no entity on the right nothing matches:
    [intersection] is empty and, at positive leniency, [difference] returns
    every left span. With no entity on the left both results are empty. *)
Theorem empty_operands (self annotations : Annotations) (leniency : Q) :
  (0 < leniency)%Q → (leniency <= 1)%Q →
  (get_entity_annotations annotations = [] →
     intersection self annotations leniency = Ok ∅
     ∧ difference self annotations leniency
       = Ok (list_to_set (get_entity_annotations self)))
  ∧ (get_entity_annotations self = [] →
     intersection self annotations leniency = Ok ∅
     ∧ difference self annotations leniency = Ok ∅).
Proof.
  intros Hpos Hle. apply Qlt_le_weak in Hpos as H0.
  rewrite intersection_in_range, difference_positive by done.
  split; intros Hempty.
  - assert (matching_scan leniency self annotations = ∅) as ->.
    { apply set_eq. intros x.
      rewrite elem_of_matching_scan, Hempty, elem_of_empty.
      split; [by intros (_ & c & ?%elem_of_nil & _) | done]. }
    split; [done |]. f_equal. apply set_eq. intros x.
    rewrite elem_of_difference, elem_of_empty. tauto.
  - unfold matching_scan. rewrite Hempty. cbn. split; [done |].
    by f_equal.
Qed.

Lemma empty_operands_witness :
  (intersection warfarin empty_annotations 1 = Ok ∅
   ∧ difference warfarin empty_annotations 1
     = Ok (list_to_set (get_entity_annotations warfarin)))
  ∧ (intersection empty_annotations warfarin 1 = Ok ∅
     ∧ difference empty_annotations warfarin 1 = Ok ∅).
Proof.
  split.
  - by apply (empty_operands warfarin empty_annotations 1).
  - by apply (empty_operands empty_annotations warfarin 1).
Defined.

(** ** Overlap and ambiguity *)

Lemma overlap_nonneg a c : 0 ≤ overlap a c.
Proof. destruct a as [[[??]?]?], c as [[[??]?]?]. cbn. lia. Qed.

(** X5. The overlap of two spans is symmetric and never negative; it is
    positive exactly when the two ranges share a character, which for spans
    with [start < end] means that each starts before the other ends, so
    spans that merely touch do not overlap. *)
Theorem overlap_positive_iff (a c : Span) :
  overlap a c = overlap c a
  ∧ 0 ≤ overlap a c
  ∧ (overlap a c ≠ 0 ↔
       Z.max (span_start a) (span_start c) < Z.min (span_end a) (span_end c))
  ∧ (span_start a < span_end a → span_start c < span_end c →
       (overlap a c ≠ 0 ↔
          span_start a < span_end c ∧ span_start c < span_end a)).
Proof.
  destruct a as [[[l s] e] t], c as [[[cl cs] ce] ct]. cbn.
  split_and!; [lia | lia | lia |]. intros Ha Hc. lia.
Qed.

Lemma overlap_positive_iff_witness :
  overlap ("Drug", 10, 20, "x") ("Dose", 20, 25, "y") = 0
  ∧ overlap ("Drug", 10, 20, "x") ("Dose", 19, 25, "y") ≠ 0.
Proof.
  destruct (overlap_positive_iff ("Drug", 10, 20, "x") ("Dose", 20, 25, "y"))
    as (_ & _ & _ & Htouch).
  destruct (overlap_positive_iff ("Drug", 10, 20, "x") ("Dose", 19, 25, "y"))
    as (_ & _ & _ & Hshare).
  split.
  - destruct (decide (overlap ("Drug", 10, 20, "x") ("Dose", 20, 25, "y") = 0))
      as [Hz|Hnz]; [done |].
    apply Htouch in Hnz; [| by vm_compute..].
    cbn in Hnz. lia.
  - apply Hshare; [by vm_compute.. |]. cbn. lia.
Defined.

(** X6. Every entry of [compute_ambiguity] is sound: its key is a left
    span and its value holds one right span, of another label, whose
    overlap with the key is positive. *)
Theorem ambiguity_entries_sound (self annotations : Annotations)
    (key : Span) (value : list Span) :
  (key, value) ∈ compute_ambiguity self annotations →
  key ∈ get_entity_annotations self
  ∧ ∃ c, value = [c]
         ∧ c ∈ get_entity_annotations annotations
         ∧ span_label key ≠ span_label c
         ∧ 0 < overlap key c.
Proof.
  apply (compute_ambiguity_invariant
           (λ key value,
              key ∈ get_entity_annotations self
              ∧ ∃ c, value = [c]
                     ∧ c ∈ get_entity_annotations annotations
                     ∧ span_label key ≠ span_label c
                     ∧ 0 < overlap key c)).
  intros a c Ha Hc Hne Hov. split; [done |].
  exists c. split_and!; [done | done | done |].
  pose proof (overlap_nonneg a c). lia.
Qed.

Lemma ambiguity_entries_sound_witness :
  ∃ c, [("Frequency", 15, 25, "daily")] = [c]
       ∧ c ∈ get_entity_annotations dose_and_frequency
       ∧ "Drug" ≠ span_label c
       ∧ 0 < overlap ("Drug", 10, 20, "warfarin") c.
Proof.
  apply (ambiguity_entries_sound warfarin dose_and_frequency
           ("Drug", 10, 20, "warfarin") [("Frequency", 15, 25, "daily")]).
  decide_by_evaluation.
Defined.

Lemma ambiguity_step_hit a d c :
  ambiguity_step a d c = if ambiguous_with a c then dict_set d a [c] else d.
Proof.
  rewrite ambiguity_step_overwrite. unfold ambiguous_with.
  destruct (decide (span_label a = span_label c)) as [Heq|Hne].
  - by rewrite bool_decide_eq_true_2.
  - rewrite bool_decide_eq_false_2 by done. cbn.
    destruct (decide (overlap a c ≠ 0)) as [Hov|Hov].
    + by apply Z.eqb_neq in Hov as ->.
    + apply dec_stable in Hov. by rewrite Hov.
Qed.

Lemma ambiguity_inner_lookup a cs (d : dict Span (list Span)) k :
  dict_get (foldl (ambiguity_step a) d cs) k
  = if decide (a = k)
    then match last (List.filter (ambiguous_with a) cs) with
         | Some c => Some [c]
         | None => dict_get d k
         end
    else dict_get d k.
Proof.
  revert d. induction cs as [|c cs IH]; intros d; cbn [foldl List.filter].
  - by destruct (decide (a = k)).
  - rewrite IH, ambiguity_step_hit.
    destruct (ambiguous_with a c) eqn:Hhit.
    + destruct (decide (a = k)) as [->|Hne].
      * rewrite last_cons, dict_get_set_eq.
        by destruct (last (List.filter (ambiguous_with k) cs)).
      * by rewrite dict_get_set_ne.
    + done.
Qed.

(** X7. What [compute_ambiguity] records for a span: a left span that some
    right span hits (another label, non-zero overlap) is mapped to the list
    holding the last such right span, in the order of the right set; any
    other span is not a key. *)
Theorem compute_ambiguity_lookup (self annotations : Annotations) (a : Span) :
  dict_get (compute_ambiguity self annotations) a
  = if decide (a ∈ get_entity_annotations self)
    then (λ c, [c]) <$> last (List.filter (ambiguous_with a)
                                (get_entity_annotations annotations))
    else None.
Proof.
  unfold compute_ambiguity.
  generalize (get_entity_annotations annotations) as cs.
  generalize (get_entity_annotations self) as left_spans.
  intros left_spans cs.
  assert (∀ d : dict Span (list Span),
            dict_get (foldl (λ d a, foldl (ambiguity_step a) d cs) d left_spans) a
            = if decide (a ∈ left_spans)
              then match last (List.filter (ambiguous_with a) cs) with
                   | Some c => Some [c]
                   | None => dict_get d a
                   end
              else dict_get d a) as Hgen.
  { induction left_spans as [|b l IH]; intros d; cbn [foldl].
    - by rewrite decide_False by by intros ?%elem_of_nil.
    - rewrite IH, ambiguity_inner_lookup.
      destruct (decide (b = a)) as [->|Hne].
      + rewrite (decide_True (P := a ∈ a :: l)) by by left.
        destruct (decide (a ∈ l));
          by destruct (last (List.filter (ambiguous_with a) cs)).
      + destruct (decide (a ∈ l)) as [Hin|Hnin].
        * by rewrite (decide_True (P := a ∈ b :: l)) by by right.
        * rewrite (decide_False (P := a ∈ b :: l)); [done |].
          intros [?|?]%elem_of_cons; [congruence | done]. }
  rewrite Hgen. destruct (decide (a ∈ left_spans)); [| done].
  by destruct (last (List.filter (ambiguous_with a) cs)).
Qed.

(** ** Every cell of the confusion matrix *)

Lemma for_each_app {A S} (body : S → A → result S) (xs ys : list A) (s : S) :
  for_each body (xs ++ ys) s = (s' ← for_each body xs s; for_each body ys s').
Proof.
  revert s. induction xs as [|x xs IH]; intros s; cbn; [done |].
  destruct (body s x) as [s'|e]; cbn; [apply IH | done].
Qed.

Lemma for_each_fmap {A B S} (f : A → B) (body : S → B → result S)
    (xs : list A) (s : S) :
  for_each body (f <$> xs) s = for_each (λ s x, body s (f x)) xs s.
Proof.
  revert s. induction xs as [|x xs IH]; intros s; cbn; [done |].
  destruct (body s (f x)) as [s'|e]; cbn; [apply IH | done].
Qed.

Lemma off_diagonal_pairs enc d m :
  off_diagonal enc d m = increment_pairs enc (ambiguous_pairs d) m.
Proof.
  unfold off_diagonal, increment_pairs, ambiguous_pairs.
  revert m. induction d as [|[gold ambiguous] d IH]; intros m; [done |].
  cbn [for_each mbind list_bind]. rewrite for_each_app, for_each_fmap.
  destruct (for_each _ ambiguous m) as [m'|e]; cbn; [apply IH | done].
Qed.

Lemma diagonal_pairs enc xs m :
  diagonal enc xs m = increment_pairs enc ((λ x, (x, x)) <$> xs) m.
Proof. unfold diagonal, increment_pairs. by rewrite for_each_fmap. Qed.

Lemma pairs_encoded_as_cons enc i j row_span col_span pairs :
  pairs_encoded_as enc i j ((row_span, col_span) :: pairs)
  = ((if decide (dict_get enc (span_label row_span) = Some i
                 ∧ dict_get enc (span_label col_span) = Some j)
      then 1 else 0)
     + pairs_encoded_as enc i j pairs)%nat.
Proof.
  unfold pairs_encoded_as. cbn [List.filter].
  destruct (decide (dict_get enc (span_label row_span) = Some i)) as [Hr|Hr];
    destruct (decide (dict_get enc (span_label col_span) = Some j)) as [Hc|Hc].
  - by rewrite !bool_decide_eq_true_2, decide_True by done.
  - rewrite (bool_decide_eq_false_2 _ Hc), andb_false_r.
    by rewrite decide_False by tauto.
  - rewrite (bool_decide_eq_false_2 _ Hr). cbn.
    by rewrite decide_False by tauto.
  - rewrite (bool_decide_eq_false_2 _ Hr). cbn.
    by rewrite decide_False by tauto.
Qed.

Lemma pairs_encoded_as_diagonal enc i j xs :
  pairs_encoded_as enc i j ((λ x, (x, x)) <$> xs)
  = if decide (i = j) then encoded_as enc i xs else 0%nat.
Proof.
  induction xs as [|x xs IH]; [by destruct (decide (i = j)) |].
  rewrite fmap_cons, pairs_encoded_as_cons, IH, encoded_as_cons.
  destruct (decide (i = j)) as [->|Hne].
  - destruct (decide (dict_get enc (span_label x) = Some j)).
    + by rewrite decide_True.
    + by rewrite decide_False by tauto.
  - rewrite decide_False; [done |]. intros [? ?]. congruence.
Qed.

Lemma entity_encoding_unknown ents label :
  label ∉ ents → dict_get (entity_encoding ents) label = None.
Proof.
  intros Hnot. destruct (dict_get (entity_encoding ents) label) as [i|] eqn:Hi;
    [| done].
  apply entity_encoding_lookup in Hi as [_ Hi].
  by apply list_elem_of_lookup_2 in Hi.
Qed.

(** A lookup of a label outside the vocabulary is the only way for one
    [+= 1] to fail on a square matrix. *)
Lemma increment_unknown ents m row_label col_label :
  square (length ents) m →
  (row_label ∉ ents →
     increment (entity_encoding ents) m row_label col_label
     = Raise (KeyError row_label))
  ∧ (row_label ∈ ents → col_label ∉ ents →
     increment (entity_encoding ents) m row_label col_label
     = Raise (KeyError col_label)).
Proof.
  intros [Hlen Hrows]. unfold increment, encode, index. split.
  - intros Hr. by rewrite (entity_encoding_unknown _ _ Hr).
  - intros Hr Hc. destruct (entity_encoding_known _ _ Hr) as [i Hi].
    rewrite Hi. cbn.
    destruct (entity_encoding_lookup _ _ _ Hi) as [Hilt _].
    destruct (lookup_lt_is_Some_2 m i) as [row ->]; [lia |]. cbn.
    by rewrite (entity_encoding_unknown _ _ Hc).
Qed.

(** The loop of increments: with every label known it returns, and each cell
    has gone up by the number of pairs encoded at it; otherwise it raises
    [KeyError] for a label of one of the pairs that the vocabulary lacks. *)
Lemma increment_pairs_outcome ents pairs m :
  square (length ents) m →
  (∃ m', increment_pairs (entity_encoding ents) pairs m = Ok m'
         ∧ square (length ents) m'
         ∧ (∀ row_span col_span, (row_span, col_span) ∈ pairs →
              span_label row_span ∈ ents ∧ span_label col_span ∈ ents)
         ∧ ∀ i j, cell m' i j
                  = cell m i j
                    + Z.of_nat (pairs_encoded_as (entity_encoding ents) i j pairs))
  ∨ (∃ row_span col_span label,
       increment_pairs (entity_encoding ents) pairs m = Raise (KeyError label)
       ∧ (row_span, col_span) ∈ pairs
       ∧ (label = span_label row_span ∨ label = span_label col_span)
       ∧ label ∉ ents).
Proof.
  unfold increment_pairs. revert m.
  induction pairs as [|[r c] pairs IH]; intros m Hsq; cbn [for_each].
  - left. exists m. split_and!; [done | done | by intros ?? ?%elem_of_nil |].
    intros i j. unfold pairs_encoded_as. cbn. lia.
  - destruct (increment_unknown ents m (span_label r) (span_label c) Hsq)
      as [Hrow Hcol].
    destruct (decide (span_label r ∈ ents)) as [Hr|Hr];
      [destruct (decide (span_label c ∈ ents)) as [Hc|Hc] |].
    + destruct (entity_encoding_known _ _ Hr) as [i Hi].
      destruct (entity_encoding_known _ _ Hc) as [j Hj].
      destruct (entity_encoding_lookup _ _ _ Hi) as [Hilt _].
      destruct (entity_encoding_lookup _ _ _ Hj) as [Hjlt _].
      destruct (increment_spec _ _ m _ _ i j Hsq Hi Hj Hilt Hjlt)
        as (m1 & -> & Hsq1 & Hcell). cbn [mbind result_bind].
      destruct (IH m1 Hsq1)
        as [(m' & Hloop & Hsq' & Hknown & Hcell')
           |(r' & c' & label & Hloop & Hin & Hlabel & Hnot)].
      * left. exists m'. split_and!; [done | done | |].
        -- intros r' c' [[= -> ->]|Hin]%elem_of_cons; [done | by apply Hknown].
        -- intros a b.
           rewrite Hcell', Hcell, pairs_encoded_as_cons, Hi, Hj.
           destruct (decide (a = i ∧ b = j)) as [[-> ->]|Hne].
           ++ rewrite decide_True by done. lia.
           ++ rewrite decide_False; [lia |]. intros [[= ->] [= ->]]. tauto.
      * right. exists r', c', label. split_and!; [done | by right | done | done].
    + right. exists r, c, (span_label c).
      rewrite (Hcol Hr Hc). split_and!; [done | by left | by right | done].
    + right. exists r, c, (span_label r).
      rewrite (Hrow Hr). split_and!; [done | by left | by left | done].
Qed.

Lemma elem_of_ambiguous_pairs d (gold c : Span) :
  (gold, c) ∈ ambiguous_pairs d ↔ ∃ value, (gold, value) ∈ d ∧ c ∈ value.
Proof.
  unfold ambiguous_pairs. rewrite list_elem_of_bind. split.
  - intros ([key value] & Hin & Hd).
    apply list_elem_of_fmap in Hin as (c' & [= -> ->] & Hc'). eauto.
  - intros (value & Hd & Hc). exists (gold, value). split; [| done].
    apply list_elem_of_fmap. eauto.
Qed.

Lemma ambiguous_pairs_known (self annotations : Annotations)
    (labels : list string) gold c :
  (∀ a, a ∈ get_entity_annotations self
        ∨ a ∈ get_entity_annotations annotations →
        span_label a ∈ labels) →
  (gold, c) ∈ ambiguous_pairs (compute_ambiguity self annotations) →
  span_label gold ∈ labels ∧ span_label c ∈ labels.
Proof.
  intros Hknown (value & Hd & Hc)%elem_of_ambiguous_pairs.
  apply compute_ambiguity_labels in Hd as [Hgold Hvalue].
  destruct (Hvalue c Hc) as [Hcin _]. split; apply Hknown; auto.
Qed.

(** X8. With every label of the two sets in the vocabulary and a leniency in
    [0,1], [compute_confusion_matrix] returns a square matrix of the size of
    the vocabulary in which the cell at row [i] and column [j] counts the
    recorded ambiguous pairs whose gold label is encoded as [i] and whose
    other label as [j], plus, on the diagonal, the spans of the intersection
    whose label is encoded as [i]. *)
Theorem confusion_matrix_cells (self annotations : Annotations)
    (labels : list string) (leniency : Q) :
  (∀ a, a ∈ get_entity_annotations self
        ∨ a ∈ get_entity_annotations annotations →
        span_label a ∈ labels) →
  (0 <= leniency)%Q → (leniency <= 1)%Q →
  ∃ m matched,
    compute_confusion_matrix self annotations labels leniency = Ok m
    ∧ intersection self annotations leniency = Ok matched
    ∧ square (length labels) m
    ∧ ∀ i j,
        cell m i j
        = Z.of_nat (pairs_encoded_as (entity_encoding labels) i j
                      (ambiguous_pairs (compute_ambiguity self annotations)))
          + (if decide (i = j)
             then Z.of_nat (encoded_as (entity_encoding labels) i
                              (elements matched))
             else 0).
Proof.
  intros Hknown H0 H1. unfold compute_confusion_matrix.
  rewrite intersection_in_range by done. cbn [mbind result_bind].
  rewrite off_diagonal_pairs.
  destruct (increment_pairs_outcome labels
              (ambiguous_pairs (compute_ambiguity self annotations))
              (zero_matrix (length labels)) (zero_matrix_square _))
    as [(m0 & -> & Hsq0 & _ & Hcell0)
       |(r & c & label & _ & Hin & Hlabel & Hnot)]; cbn [mbind result_bind].
  2: { apply (ambiguous_pairs_known _ _ labels) in Hin as [Hr Hc]; [| done].
       destruct Hlabel as [->| ->]; done. }
  rewrite diagonal_pairs.
  destruct (increment_pairs_outcome labels
              ((λ x, (x, x)) <$>
                 elements (matching_scan leniency self annotations)) m0 Hsq0)
    as [(m & -> & Hsq & _ & Hcell)
       |(r & c & label & _ & Hin & Hlabel & Hnot)].
  2: { apply list_elem_of_fmap in Hin as (x & [= -> ->] & Hx).
       apply elem_of_elements, elem_of_matching_scan in Hx as [Hx _].
       exfalso. apply Hnot.
       destruct Hlabel as [->| ->]; apply Hknown; by left. }
  exists m, (matching_scan leniency self annotations).
  split_and!; [done | done | done |].
  intros i j.
  rewrite Hcell, Hcell0, zero_matrix_cell, pairs_encoded_as_diagonal.
  destruct (decide (i = j)); lia.
Qed.

Lemma confusion_matrix_cells_witness :
  ∃ m matched,
    compute_confusion_matrix warfarin dose_and_frequency
      ["Drug"; "Dose"; "Frequency"] (1 # 2) = Ok m
    ∧ intersection warfarin dose_and_frequency (1 # 2) = Ok matched
    ∧ square 3 m
    ∧ ∀ i j,
        cell m i j
        = Z.of_nat (pairs_encoded_as
                      (entity_encoding ["Drug"; "Dose"; "Frequency"]) i j
                      (ambiguous_pairs
                         (compute_ambiguity warfarin dose_and_frequency)))
          + (if decide (i = j)
             then Z.of_nat (encoded_as
                              (entity_encoding ["Drug"; "Dose"; "Frequency"]) i
                              (elements matched))
             else 0).
Proof.
  apply (confusion_matrix_cells warfarin dose_and_frequency
           ["Drug"; "Dose"; "Frequency"] (1 # 2)); [| by vm_compute..].
  intros a [Ha|Ha]; cbn in Ha;
    repeat (apply elem_of_cons in Ha as [->|Ha]);
    try (by apply elem_of_nil in Ha);
    decide_by_evaluation.
Defined.

(** X9. The three outcomes of [compute_confusion_matrix]: a square matrix
    of the size of the vocabulary; the leniency [ValueError], exactly when
    the leniency is outside [0,1]; or [KeyError] for the label of a span of
    one of the two sets that the vocabulary lacks. No index is ever out of
    range. *)
Theorem confusion_matrix_outcomes (self annotations : Annotations)
    (labels : list string) (leniency : Q) :
  ((0 <= leniency)%Q ∧ (leniency <= 1)%Q
   ∧ ∃ m, compute_confusion_matrix self annotations labels leniency = Ok m
          ∧ square (length labels) m)
  ∨ (¬ ((0 <= leniency)%Q ∧ (leniency <= 1)%Q)
     ∧ compute_confusion_matrix self annotations labels leniency
       = Raise leniency_error)
  ∨ ((0 <= leniency)%Q ∧ (leniency <= 1)%Q
     ∧ ∃ a, (a ∈ get_entity_annotations self
             ∨ a ∈ get_entity_annotations annotations)
            ∧ (span_label a ∉ labels)
            ∧ compute_confusion_matrix self annotations labels leniency
              = Raise (KeyError (span_label a))).
Proof.
  destruct (leniency_in_range leniency) eqn:Hrange.
  2: { right. left. apply not_true_iff_false in Hrange.
       rewrite leniency_in_range_true in Hrange.
       split; [done |]. by apply confusion_matrix_leniency_error. }
  apply leniency_in_range_true in Hrange as [H0 H1].
  unfold compute_confusion_matrix.
  rewrite intersection_in_range by done. cbn [mbind result_bind].
  rewrite off_diagonal_pairs.
  destruct (increment_pairs_outcome labels
              (ambiguous_pairs (compute_ambiguity self annotations))
              (zero_matrix (length labels)) (zero_matrix_square _))
    as [(m0 & -> & Hsq0 & _ & _)
       |(r & c & label & -> & Hin & Hlabel & Hnot)]; cbn [mbind result_bind].
  2: { right. right. split_and!; [done | done |].
       apply elem_of_ambiguous_pairs in Hin as (value & Hd & Hc).
       apply compute_ambiguity_labels in Hd as [Hgold Hvalue].
       destruct (Hvalue c Hc) as [Hcin _].
       destruct Hlabel as [->| ->]; [exists r | exists c]; auto. }
  rewrite diagonal_pairs.
  destruct (increment_pairs_outcome labels
              ((λ x, (x, x)) <$>
                 elements (matching_scan leniency self annotations)) m0 Hsq0)
    as [(m & -> & Hsq & _ & _)
       |(r & c & label & -> & Hin & Hlabel & Hnot)].
  - left. eauto.
  - right. right. split_and!; [done | done |].
    apply list_elem_of_fmap in Hin as (x & [= -> ->] & Hx).
    apply elem_of_elements, elem_of_matching_scan in Hx as [Hx _].
    exists x. destruct Hlabel as [->| ->]; auto.
Qed.

Lemma confusion_matrix_returns (self annotations : Annotations)
    (labels : list string) (leniency : Q) :
  (∀ a, a ∈ get_entity_annotations self
        ∨ a ∈ get_entity_annotations annotations →
        span_label a ∈ labels) →
  (0 <= leniency)%Q → (leniency <= 1)%Q →
  ∃ m, compute_confusion_matrix self annotations labels leniency = Ok m
       ∧ square (length labels) m.
Proof.
  intros Hknown H0 H1. unfold compute_confusion_matrix.
  rewrite intersection_in_range by done. cbn [mbind result_bind].
  rewrite off_diagonal_pairs.
  destruct (increment_pairs_outcome labels
              (ambiguous_pairs (compute_ambiguity self annotations))
              (zero_matrix (length labels)) (zero_matrix_square _))
    as [(m0 & -> & Hsq0 & _ & _)
       |(r & c & label & _ & Hin & Hlabel & Hnot)]; cbn [mbind result_bind].
  2: { apply (ambiguous_pairs_known _ _ labels) in Hin as [Hr Hc]; [| done].
       destruct Hlabel as [->| ->]; done. }
  rewrite diagonal_pairs.
  destruct (increment_pairs_outcome labels
              ((λ x, (x, x)) <$>
                 elements (matching_scan leniency self annotations)) m0 Hsq0)
    as [(m & -> & Hsq & _ & _)
       |(r & c & label & _ & Hin & Hlabel & Hnot)]; [by eauto |].
  apply list_elem_of_fmap in Hin as (x & [= -> ->] & Hx).
  apply elem_of_elements, elem_of_matching_scan in Hx as [Hx _].
  exfalso. apply Hnot.
  destruct Hlabel as [->| ->]; apply Hknown; by left.
Qed.


Lemma elem_of_get_labels self label :
  label ∈ get_labels self
  ↔ ∃ a, a ∈ get_entity_annotations self ∧ span_label a = label.
Proof.
  unfold get_labels, get_entity_annotations.
  rewrite elem_of_list_to_set, list_elem_of_fmap. split.
  - intros (a & -> & Ha). eauto.
  - intros (a & Ha & <-). eauto.
Qed.

(** X10. The labels that [get_labels] reports for the two sets are a
    sufficient vocabulary: with their union, in any order and with any
    further labels, [compute_confusion_matrix] returns a matrix at every
    leniency in [0,1]. *)
Theorem get_labels_vocabulary (self annotations : Annotations)
    (labels : list string) (leniency : Q) :
  (∀ label, label ∈ get_labels self ∪ get_labels annotations →
            label ∈ labels) →
  (0 <= leniency)%Q → (leniency <= 1)%Q →
  ∃ m, compute_confusion_matrix self annotations labels leniency = Ok m
       ∧ square (length labels) m.
Proof.
  intros Hvocab H0 H1. apply confusion_matrix_returns; [| done | done].
  intros a Ha. apply Hvocab, elem_of_union.
  destruct Ha as [Ha|Ha]; [left | right]; apply elem_of_get_labels; eauto.
Qed.

Lemma get_labels_vocabulary_witness :
  ∃ m, compute_confusion_matrix warfarin dose_and_frequency
         ["Frequency"; "Drug"; "Dose"] 1 = Ok m
       ∧ square 3 m.
Proof.
  apply (get_labels_vocabulary warfarin dose_and_frequency
           ["Frequency"; "Drug"; "Dose"] 1); [| by vm_compute..].
  intros label [Hl|Hl]%elem_of_union;
    apply elem_of_get_labels in Hl as (a & Ha & <-); cbn in Ha;
    repeat (apply elem_of_cons in Ha as [->|Ha]);
    try (by apply elem_of_nil in Ha);
    decide_by_evaluation.
Defined.

(** ** More on dictionaries *)

Section dict_more_facts.
Context {K V : Type} `{EqDecision K}.
Implicit Types (d : dict K V) (k : K) (v : V).

Lemma dict_get_elem_of d k v : dict_get d k = Some v → (k, v) ∈ d.
Proof.
  induction d as [|[k0 v0] d IH]; cbn; [done |].
  destruct (decide (k0 = k)) as [->|Hne].
  - intros [= ->]. by left.
  - intros Hget. right. by apply IH.
Qed.


Lemma elem_of_dict_keys_set d k v k' :
  k' ∈ dict_keys (dict_set d k v) ↔ k' = k ∨ k' ∈ dict_keys d.
Proof.
  unfold dict_keys. induction d as [|[k0 v0] d IH]; cbn.
  - rewrite elem_of_cons, elem_of_nil. tauto.
  - destruct (decide (k0 = k)) as [->|Hne]; cbn.
    + rewrite !elem_of_cons. tauto.
    + rewrite !elem_of_cons, IH. tauto.
Qed.

Lemma dict_set_NoDup d k v :
  NoDup (dict_keys d) → NoDup (dict_keys (dict_set d k v)).
Proof.
  intros Hnd. destruct (decide (k ∈ dict_keys d)) as [Hin|Hnin].
  - by rewrite dict_set_present_keys.
  - rewrite dict_set_fresh by done. unfold dict_keys in *.
    rewrite fmap_app. cbn. apply NoDup_app. split_and!; [done | |].
    + intros k' Hk' [->|[]%elem_of_nil]%elem_of_cons. done.
    + apply NoDup_singleton.
Qed.
End dict_more_facts.

(** ** What [add_entity] keeps *)

Lemma add_entity_contiguous self label start end_ text :
  contiguous_ids self →
  entities (add_entity self label start end_ text)
  = (entities self
       ++ [(entity_id (length (entities self) + 1),
            (label, start, end_, text))])%list
  ∧ contiguous_ids (add_entity self label start end_ text).
Proof.
  intros Hc. pose proof (contiguous_next_fresh self Hc) as Hfresh.
  assert (entities (add_entity self label start end_ text)
          = (entities self
               ++ [(entity_id (length (entities self) + 1),
                    (label, start, end_, text))])%list) as Happ
    by by apply dict_set_fresh.
  split; [done |].
  unfold contiguous_ids in *. rewrite Happ, length_app. cbn [length].
  unfold dict_keys in *. rewrite fmap_app, Hc. cbn [fmap list_fmap fst].
  replace (length (entities self) + 1)%nat
    with (S (length (entities self))) by lia.
  by rewrite seq_S, fmap_app.
Qed.

(** X11. [add_entity] touches one entry only: the relations are unchanged,
    every other identifier keeps its span, distinct identifiers stay
    distinct, and the added span and its label are in the set afterwards. *)
Theorem add_entity_frame (self : Annotations) (label : string)
    (start end_ : Z) (text : string) :
  let after := add_entity self label start end_ text in
  relations after = relations self
  ∧ (∀ k, k ≠ entity_id (length (entities self) + 1) →
          dict_get (entities after) k = dict_get (entities self) k)
  ∧ (NoDup (dict_keys (entities self)) → NoDup (dict_keys (entities after)))
  ∧ (label, start, end_, text) ∈ get_entity_annotations after
  ∧ label ∈ get_labels after.
Proof.
  cbn zeta. unfold add_entity. cbn [entities relations].
  assert ((label, start, end_, text)
          ∈ dict_values
              (dict_set (entities self)
                 (entity_id (length (entities self) + 1))
                 (label, start, end_, text))) as Hin.
  { unfold dict_values. apply list_elem_of_fmap. eexists (_, _).
    split; [done |]. apply dict_get_elem_of, dict_get_set_eq. }
  split_and!.
  - done.
  - intros k Hne. by apply dict_get_set_ne.
  - apply dict_set_NoDup.
  - done.
  - apply elem_of_get_labels. by exists (label, start, end_, text).
Qed.

Lemma add_entity_frame_witness :
  NoDup (dict_keys (entities (add_entity gapped "Route" 30 34 "oral"))).
Proof.
  apply (add_entity_frame gapped "Route" 30 34 "oral").
  decide_by_evaluation.
Defined.

(** X12. Built by successive [add_entity] calls on a set whose identifiers
    are [T1 .. Tn] (the empty set in particular), the set lists the added
    spans after the old ones, in the order of the calls, under the
    identifiers that follow, and its identifiers are again contiguous. *)
Theorem add_all_appends (self : Annotations) (spans : list Span) :
  contiguous_ids self →
  get_entity_annotations (add_all self spans)
  = (get_entity_annotations self ++ spans)%list
  ∧ dict_keys (entities (add_all self spans))
    = (dict_keys (entities self)
         ++ (entity_id <$> seq (length (entities self) + 1) (length spans)))%list
  ∧ contiguous_ids (add_all self spans).
Proof.
  unfold add_all. revert self.
  induction spans as [|[[[label start] end_] text] spans IH]; intros self Hc;
    cbn [foldl].
  - cbn. by rewrite !app_nil_r.
  - destruct (add_entity_contiguous self label start end_ text Hc)
      as [Happ Hc'].
    destruct (IH _ Hc') as (Hvalues & Hkeys & Hcont).
    split_and!; [| | done].
    + rewrite Hvalues. unfold get_entity_annotations, dict_values.
      rewrite Happ, fmap_app. cbn. by rewrite <- app_assoc.
    + rewrite Hkeys, Happ. unfold dict_keys.
      rewrite fmap_app, length_app. cbn.
      rewrite <- app_assoc. do 2 f_equal.
      by replace (length (entities self) + 1 + 1)%nat
        with (S (length (entities self) + 1)) by lia.
Qed.

Lemma add_all_appends_witness :
  get_entity_annotations
    (add_all empty_annotations
       [("Drug", 10, 15, "aspirin"); ("Dose", 20, 23, "5mg")])
  = [("Drug", 10, 15, "aspirin"); ("Dose", 20, 23, "5mg")].
Proof.
  apply (add_all_appends empty_annotations
           [("Drug", 10, 15, "aspirin"); ("Dose", 20, 23, "5mg")]).
  unfold contiguous_ids. by vm_compute.
Defined.

(** ** Label counts *)

Lemma Counter_step_lookup (mapping : dict string nat) (elem label : string) :
  dict_get (dict_set mapping elem (default 0 (dict_get mapping elem) + 1)%nat)
           label
  = if decide (elem = label)
    then Some (default 0 (dict_get mapping label) + 1)%nat
    else dict_get mapping label.
Proof.
  destruct (decide (elem = label)) as [->|Hne].
  - by rewrite dict_get_set_eq.
  - by rewrite dict_get_set_ne.
Qed.

Lemma Counter_fold_lookup (mapping : dict string nat) (xs : list string)
    (label : string) :
  dict_get
    (foldl (λ mapping elem,
              dict_set mapping elem (default 0 (dict_get mapping elem) + 1)%nat)
           mapping xs) label
  = match length (List.filter (λ x, bool_decide (x = label)) xs) with
    | O => dict_get mapping label
    | S n => Some (default 0 (dict_get mapping label) + S n)%nat
    end.
Proof.
  revert mapping. induction xs as [|x xs IH]; intros mapping;
    cbn [foldl List.filter]; [done |].
  rewrite IH, Counter_step_lookup.
  destruct (decide (x = label)) as [->|Hne].
  - rewrite bool_decide_eq_true_2 by done. cbn [length].
    destruct (length (List.filter (λ x, bool_decide (x = label)) xs));
      cbn [default from_option]; unfold id; f_equal; lia.
  - by rewrite bool_decide_eq_false_2 by done.
Qed.

Lemma Counter_step_sum (mapping : dict string nat) (elem : string) :
  sum_list (dict_values
              (dict_set mapping elem (default 0 (dict_get mapping elem) + 1)%nat))
  = S (sum_list (dict_values mapping)).
Proof.
  unfold dict_values.
  induction mapping as [|[k v] mapping IH]; cbn; [done |].
  destruct (decide (k = elem)) as [->|Hne]; cbn; [lia |].
  rewrite IH. lia.
Qed.

Lemma filter_label_fmap (label : string) (spans : list Span) :
  length (List.filter (λ x, bool_decide (x = label)) (span_label <$> spans))
  = length (List.filter (λ a, bool_decide (span_label a = label)) spans).
Proof.
  induction spans as [|a spans IH]; cbn; [done |].
  destruct (bool_decide (span_label a = label)); cbn; by rewrite IH.
Qed.

(** X13. [compute_counts] maps each label that occurs to the number of
    entities carrying it and has no entry for a label that does not occur;
    its relation counts are empty whatever relations the set holds. *)
Theorem compute_counts_lookup (self : Annotations) (label : string) :
  dict_get (counts_entities (compute_counts self)) label
  = match length (List.filter (λ a, bool_decide (span_label a = label))
                    (get_entity_annotations self)) with
    | O => None
    | S n => Some (S n)
    end
  ∧ counts_relations (compute_counts self) = [].
Proof.
  split; [| done]. unfold compute_counts, Counter. cbn [counts_entities].
  by rewrite Counter_fold_lookup, filter_label_fmap.
Qed.

(** X14. The counts of [compute_counts] add up to the number of entities,
    no label is listed twice, and the labels listed are those of
    [get_labels]. *)
Theorem compute_counts_total (self : Annotations) :
  sum_list (dict_values (counts_entities (compute_counts self)))
  = length (entities self)
  ∧ NoDup (dict_keys (counts_entities (compute_counts self)))
  ∧ list_to_set (dict_keys (counts_entities (compute_counts self)))
    = get_labels self.
Proof.
  unfold compute_counts, Counter, get_labels, get_entity_annotations.
  cbn [counts_entities].
  replace (length (entities self))
    with (length (span_label <$> dict_values (entities self)))
    by (unfold dict_values; by rewrite !length_fmap).
  generalize (span_label <$> dict_values (entities self)) as xs. intros xs.
  assert (∀ mapping : dict string nat,
            let final :=
              foldl (λ mapping elem,
                       dict_set mapping elem
                         (default 0 (dict_get mapping elem) + 1)%nat)
                    mapping xs in
            sum_list (dict_values final)
            = (sum_list (dict_values mapping) + length xs)%nat
            ∧ (NoDup (dict_keys mapping) → NoDup (dict_keys final))
            ∧ list_to_set (dict_keys final)
              =@{gset string} list_to_set (dict_keys mapping) ∪ list_to_set xs)
    as Hgen.
  { induction xs as [|x xs IH]; intros mapping; cbn zeta; cbn [foldl].
    - split_and!; [cbn [length]; lia | done |].
      cbn [list_to_set]. by rewrite union_empty_r_L.
    - destruct (IH (dict_set mapping x
                      (default 0 (dict_get mapping x) + 1)%nat))
        as (Hsum & Hnd & Hkeys).
      split_and!.
      + rewrite Hsum, Counter_step_sum. cbn [length]. lia.
      + intros Hm. by apply Hnd, dict_set_NoDup.
      + rewrite Hkeys. apply set_eq. intros k.
        rewrite !elem_of_union, !elem_of_list_to_set, elem_of_dict_keys_set.
        rewrite elem_of_cons. tauto. }
  destruct (Hgen []) as (Hsum & Hnd & Hkeys).
  split_and!; [done | apply Hnd; constructor |].
  rewrite Hkeys. cbn [dict_keys fmap list_fmap list_to_set].
  by rewrite union_empty_l_L.
Qed.

(** * The ANN format *)

(** ** Strings *)

#[local] Arguments String.append : simpl nomatch.

Lemma string_app_nil_r (s : string) : s +:+ "" = s.
Proof. induction s as [|c s IH]; [done |]. cbn. by rewrite IH. Qed.


Lemma string_app_eq_nil (s1 s2 : string) : s1 +:+ s2 = "" → s1 = "" ∧ s2 = "".
Proof. by destruct s1. Qed.



(** ** The matcher decides the matching relation *)

Lemma nullable_spec r : nullable r = true ↔ matches r "".
Proof.
  split.
  - induction r as [| |p|r1 IH1 r2 IH2|r1 IH1 r2 IH2|r IH]; cbn; try done.
    + intros _. constructor.
    + intros [H1 H2]%andb_true_iff.
      apply (matches_seq r1 r2 "" ""); auto.
    + intros [H|H]%orb_true_iff;
        [apply matches_alt_l | apply matches_alt_r]; auto.
    + intros _. constructor.
  - intros Hm. remember "" as s eqn:Hs.
    induction Hm as [|p c Hp|r1 r2 s1 s2 _ IH1 _ IH2|r1 r2 s _ IH
                    |r1 r2 s _ IH|r|r s1 s2 _ _ _ _]; cbn; try done.
    + apply string_app_eq_nil in Hs as [-> ->]. by rewrite IH1, IH2.
    + by rewrite IH.
    + rewrite IH by done. apply orb_true_r.
Qed.

Lemma deriv_sound c r s : matches (deriv c r) s → matches r (String c s).
Proof.
  revert s.
  induction r as [| |p|r1 IH1 r2 IH2|r1 IH1 r2 IH2|r IH]; intros s; cbn.
  - inversion 1.
  - inversion 1.
  - destruct (p c) eqn:Hp; inversion 1. by constructor.
  - assert (∀ s, matches (Seq (deriv c r1) r2) s →
                 matches (Seq r1 r2) (String c s)) as Hseq.
    { intros s' Hm. inversion Hm as [| |? ? s1 s2 H1 H2| | | |]; subst.
      apply (matches_seq r1 r2 (String c s1) s2); auto. }
    destruct (nullable r1) eqn:Hnull; [| apply Hseq].
    inversion 1 as [| | |? ? ? Hm|? ? ? Hm| |]; subst; [by apply Hseq |].
    apply (matches_seq r1 r2 "" (String c s)); [| by apply IH2].
    by apply nullable_spec.
  - inversion 1 as [| | |? ? ? Hm|? ? ? Hm| |]; subst;
      [apply matches_alt_l | apply matches_alt_r]; auto.
  - inversion 1 as [| |? ? s1 s2 H1 H2| | | |]; subst.
    apply (matches_star_cons r (String c s1) s2); auto.
Qed.

Lemma deriv_complete c r s : matches r (String c s) → matches (deriv c r) s.
Proof.
  intros Hm. remember (String c s) as t eqn:Ht. revert s Ht.
  induction Hm as [|p c' Hp|r1 r2 s1 s2 Hm1 IH1 Hm2 IH2|r1 r2 t Hm IH
                  |r1 r2 t Hm IH|r|r s1 s2 Hm1 IH1 Hm2 IH2];
    intros s Ht; cbn.
  - done.
  - injection Ht as -> <-. rewrite Hp. constructor.
  - destruct s1 as [|c1 s1].
    + cbn in Ht. subst s2.
      rewrite (proj2 (nullable_spec r1) Hm1). apply matches_alt_r. by apply IH2.
    + cbn in Ht. injection Ht as -> <-.
      assert (matches (Seq (deriv c r1) r2) (s1 +:+ s2)) as Hseq
        by (constructor; auto).
      destruct (nullable r1); [by apply matches_alt_l | done].
  - apply matches_alt_l. by apply IH.
  - apply matches_alt_r. by apply IH.
  - done.
  - destruct s1 as [|c1 s1].
    + cbn in Ht. by apply IH2.
    + cbn in Ht. injection Ht as -> <-. constructor; auto.
Qed.

Lemma fullmatch_spec r s : fullmatch r s = true ↔ matches r s.
Proof.
  revert r. induction s as [|c s IH]; intros r; cbn.
  - apply nullable_spec.
  - rewrite IH. split; [apply deriv_sound | apply deriv_complete].
Qed.

Lemma matches_seq_inv r1 r2 s :
  matches (Seq r1 r2) s ↔ ∃ s1 s2, s = s1 +:+ s2 ∧ matches r1 s1 ∧ matches r2 s2.
Proof.
  split.
  - inversion 1; subst. eauto.
  - intros (s1 & s2 & -> & H1 & H2). by constructor.
Qed.

Lemma matches_class_inv p s :
  matches (Class p) s ↔ ∃ c, s = String c "" ∧ p c = true.
Proof.
  split.
  - inversion 1; subst. eauto.
  - intros (c & -> & Hp). by constructor.
Qed.

Lemma matches_chr_inv c s : matches (Chr c) s ↔ s = String c "".
Proof.
  unfold Chr. rewrite matches_class_inv. split.
  - by intros (c' & -> & ->%bool_decide_eq_true).
  - intros ->. exists c. split; [done |]. by apply bool_decide_eq_true.
Qed.

Lemma matches_star_class p s :
  matches (Star (Class p)) s ↔ all_chars p s = true.
Proof.
  split.
  - intros Hm. remember (Star (Class p)) as r eqn:Hr.
    induction Hm as [| | | | |r|r s1 s2 Hm1 _ Hm2 IH2]; try done.
    injection Hr as ->. apply matches_class_inv in Hm1 as (c & -> & Hp).
    cbn. by rewrite Hp, IH2.
  - induction s as [|c s IH]; cbn; [constructor |].
    intros [Hp Hs]%andb_true_iff.
    apply (matches_star_cons (Class p) (String c "") s); [by constructor | auto].
Qed.

Lemma matches_plus_class p s :
  matches (Plus (Class p)) s ↔ some_chars p s.
Proof.
  unfold Plus, some_chars. rewrite matches_seq_inv. split.
  - intros (s1 & s2 & -> & (c & -> & Hp)%matches_class_inv
            & Hs%matches_star_class).
    cbn. by rewrite Hp, Hs.
  - intros [Hne Hall]. destruct s as [|c s]; [done |].
    cbn in Hall. apply andb_true_iff in Hall as [Hp Hs].
    exists (String c ""), s. split_and!; [done | by constructor |].
    by apply matches_star_class.
Qed.

(** ** The shape of a BRAT entity line *)

Lemma brat_line_valid number label start end_ text :
  some_chars is_digit number →
  some_chars (λ c, negb (is_space c)) label →
  some_chars is_digit start →
  some_chars is_digit end_ →
  text ≠ "" →
  is_valid_brat_ent (brat_line number label start end_ text) = true.
Proof.
  intros Hnumber Hlabel Hstart Hend Htext.
  unfold is_valid_brat_ent, brat_ent_pattern, brat_line.
  apply fullmatch_spec.
  apply (matches_seq _ _ (String "T" "")); [by apply matches_chr_inv |].
  apply matches_seq; [by apply matches_plus_class |].
  apply (matches_seq _ _ (String tab "")); [by apply matches_chr_inv |].
  apply matches_seq; [by apply matches_plus_class |].
  apply (matches_seq _ _ (String " " "")); [by apply matches_chr_inv |].
  apply matches_seq; [by apply matches_plus_class |].
  apply (matches_seq _ _ (String " " "")); [by apply matches_chr_inv |].
  apply matches_seq; [by apply matches_plus_class |].
  apply (matches_seq _ _ (String tab "")); [by apply matches_chr_inv |].
  apply matches_plus_class. split; [done |].
  clear. by induction text.
Qed.

Lemma valid_brat_line item :
  is_valid_brat_ent item = true →
  ∃ number label start end_ text,
    item = brat_line number label start end_ text
    ∧ some_chars is_digit number
    ∧ some_chars (λ c, negb (is_space c)) label
    ∧ some_chars is_digit start
    ∧ some_chars is_digit end_
    ∧ text ≠ "".
Proof.
  unfold is_valid_brat_ent, brat_ent_pattern, brat_line.
  rewrite fullmatch_spec.
  intros (s0 & t0 & -> & ->%matches_chr_inv & H0)%matches_seq_inv.
  apply matches_seq_inv in H0
    as (number & t1 & -> & Hnumber%matches_plus_class & H1).
  apply matches_seq_inv in H1 as (s2 & t2 & -> & ->%matches_chr_inv & H2).
  apply matches_seq_inv in H2
    as (label & t3 & -> & Hlabel%matches_plus_class & H3).
  apply matches_seq_inv in H3 as (s4 & t4 & -> & ->%matches_chr_inv & H4).
  apply matches_seq_inv in H4
    as (start & t5 & -> & Hstart%matches_plus_class & H5).
  apply matches_seq_inv in H5 as (s6 & t6 & -> & ->%matches_chr_inv & H6).
  apply matches_seq_inv in H6
    as (end_ & t7 & -> & Hend%matches_plus_class & H7).
  apply matches_seq_inv in H7 as (s8 & text & -> & ->%matches_chr_inv & H8).
  apply matches_plus_class in H8 as [Htext _].
  exists number, label, start, end_, text. by split_and!.
Qed.

(** X15. [is_valid_brat_ent] accepts exactly the strings made of [T], a
    number, a tab, a label without whitespace, a space, two numbers
    separated by a space, a tab and a non-empty text that may hold any
    character, tabs and line ends included. *)
Theorem is_valid_brat_ent_shape (item : string) :
  is_valid_brat_ent item = true
  ↔ ∃ number label start end_ text,
      item = brat_line number label start end_ text
      ∧ some_chars is_digit number
      ∧ some_chars (λ c, negb (is_space c)) label
      ∧ some_chars is_digit start
      ∧ some_chars is_digit end_
      ∧ text ≠ "".
Proof.
  split; [apply valid_brat_line |].
  intros (number & label & start & end_ & text & -> & Hnumber & Hlabel
          & Hstart & Hend & Htext).
  by apply brat_line_valid.
Qed.



(** ** Splitting *)





(** ** Integer literals *)









(** ** Reading a line *)








(** ** Printed numbers *)









(** ** Sorting and collecting *)










(** ** Writing *)











(** ** Writing, then reading back *)













(** ** Construction *)

(** X22. The constructor on a dictionary: it raises the [ValueError] about
    ['entities'] unless that key is present with a dictionary as value;
    then, if the key ['relations'] is missing, it raises [KeyError] from the
    subscript inside the test; otherwise it keeps the dictionary as it is,
    whatever the value of ['relations']. The [ValueError] about
    ['relations'] is never raised. *)
Theorem init_dict_outcomes (isfile : string → bool)
    (lines_of : string → list string) (items : list (string * pyobj))
    (annotation_type : option string) :
  init isfile lines_of (ObjDict items) annotation_type
  = match dict_get items "entities" with
    | Some (ObjDict _) =>
        match dict_get items "relations" with
        | Some _ => Returned (GivenDict items)
        | None => Raised (Builtin (KeyError "relations"))
        end
    | _ => Raised entities_error
    end
  ∧ init isfile lines_of (ObjDict items) annotation_type
    ≠ Raised relations_error.
Proof.
  cbn [init]. unfold init_dict, contains, getitem.
  destruct (dict_get items "entities") as [[entities| | |]|] eqn:Hent;
    (rewrite ?bool_decide_eq_true_2 by by eexists);
    (rewrite ?bool_decide_eq_false_2 by by intros [? [=]]);
    cbn; try done.
  destruct (dict_get items "relations") as [relations|] eqn:Hrel.
  - rewrite bool_decide_eq_true_2 by by eexists. by cbn.
  - rewrite bool_decide_eq_false_2 by by intros [? [=]]. by cbn.
Qed.



(** ** Formats of the entity list *)

Lemma foldl_append_fmap {A B} (f : A → B) (xs : list A) (acc : list B) :
  foldl (λ acc x, acc ++ [f x])%list acc xs = (acc ++ (f <$> xs))%list.
Proof.
  revert acc. induction xs as [|x xs IH]; intros acc; cbn.
  - by rewrite app_nil_r.
  - by rewrite IH, <- app_assoc.
Qed.

(** X24. [get_entity_annotations]: with [return_dictionary] set the format
    is not looked at, not even an invalid one, and no file is read; the
    format ['spacy'] fails without a source text path before any file is
    read, and otherwise pairs the text read with one triple (start, end,
    label) per entity, in the order of the set; any other format than
    ['medacy'] and ['spacy'] raises [ValueError]. *)
Theorem get_entity_annotations_formats (read_text : string → init_result string)
    (self : Annotations) (source_text_path : option string) (format : string) :
  get_entity_annotations_as read_text self source_text_path true format
  = Returned (AsDictionary (entities self))
  ∧ get_entity_annotations_as read_text self source_text_path false "medacy"
    = Returned (AsList (get_entity_annotations self))
  ∧ get_entity_annotations_as read_text self None false "spacy"
    = Raised (FileNotFoundError "spaCy format requires the source text path")
  ∧ get_entity_annotations_as read_text self (Some "") false "spacy"
    = Raised (FileNotFoundError "spaCy format requires the source text path")
  ∧ (∀ path source_text,
       path ≠ "" → read_text path = Returned source_text →
       get_entity_annotations_as read_text self (Some path) false "spacy"
       = Returned
           (AsSpacy source_text
              ((λ a, (span_start a, span_end a, span_label a))
                 <$> get_entity_annotations self)))
  ∧ (format ≠ "medacy" → format ≠ "spacy" →
     ∃ msg, get_entity_annotations_as read_text self source_text_path false
              format
            = Raised (Builtin (ValueError msg))).
Proof.
  split_and!; try done.
  - intros path source_text Hpath Hread.
    unfold get_entity_annotations_as. cbn.
    destruct path as [|c path]; [done |]. rewrite Hread. cbn.
    by rewrite foldl_append_fmap.
  - intros Hm Hs. unfold get_entity_annotations_as.
    rewrite !decide_False by done. by eexists.
Qed.

Lemma get_entity_annotations_formats_witness :
  get_entity_annotations_as (λ _, Returned "text") aspirin (Some "a.txt")
    false "spacy"
  = Returned (AsSpacy "text" [(10, 15, "Drug")])
  ∧ ∃ msg, get_entity_annotations_as (λ _, Returned "text") aspirin None false
             "brat"
           = Raised (Builtin (ValueError msg)).
Proof.
  destruct (get_entity_annotations_formats (λ _, Returned "text") aspirin None
              "brat")
    as (_ & _ & _ & _ & Hspacy & Hother).
  split.
  - by apply (Hspacy "a.txt" "text").
  - by apply Hother.
Defined.

(** ** More tolerance, fewer differences *)

(** X25. Raising the leniency within (0,1] never adds a span to the
    difference, for a left set whose spans have [start <= end]. *)
Theorem difference_leniency_antitone (self annotations : Annotations)
    (l1 l2 : Q) :
  (∀ a, a ∈ get_entity_annotations self → span_start a ≤ span_end a) →
  (0 < l1)%Q → (l1 <= l2)%Q → (l2 <= 1)%Q →
  ∃ unmatched1 unmatched2,
    difference self annotations l1 = Ok unmatched1
    ∧ difference self annotations l2 = Ok unmatched2
    ∧ unmatched2 ⊆ unmatched1.
Proof.
  intros Hwf Hpos Hle H1.
  eexists _, _. split_and!.
  - apply difference_positive; [done | by apply Qle_trans with l2].
  - apply difference_positive; [by apply Qlt_le_trans with l1 | done].
  - intros a [Ha Hn]%elem_of_difference. apply elem_of_difference.
    split; [done |]. intros (_ & b & Hb & Hm)%elem_of_matching_scan.
    apply Hn, elem_of_matching_scan. split; [apply elem_of_list_to_set in Ha; done |].
    exists b. split; [done |]. eapply within_window_mono; [| done | done].
    apply Hwf. by apply elem_of_list_to_set in Ha.
Qed.

Lemma difference_leniency_antitone_witness :
  ∃ unmatched1 unmatched2,
    difference drug_left wide_right (1 # 4) = Ok unmatched1
    ∧ difference drug_left wide_right (1 # 2) = Ok unmatched2
    ∧ unmatched2 ⊆ unmatched1.
Proof.
  apply (difference_leniency_antitone drug_left wide_right (1 # 4) (1 # 2));
    [| by vm_compute..].
  intros a [->|[]%elem_of_nil]%elem_of_cons. by vm_compute.
Defined.
